(** * AutosaurusAPI: the script engine, embedded and verified

    A shallow embedding of [app/core/script_engine.py] together with the parts
    of [app/models/script.py], [app/models/action.py],
    [app/core/action_executor.py] and [app/api/scripts.py] it relies on.

    Python values are an inductive type, dictionaries are insertion-ordered
    association lists (interpolation iterates over [dict.items()], so the order
    is observable), and the engine is written in a small state-and-exception
    monad over the engine object's fields.  The browser driver is a parameter:
    a function from a validated request and a driver state to a returned value
    or a raised exception, and a new driver state. *)

From Stdlib Require Import ZArith List String Ascii Bool Lia.
From Stdlib Require Import Numbers.DecimalString.
Import ListNotations.

#[global] Set Warnings "-register-all".

Open Scope string_scope.
Open Scope Z_scope.

(** ** Python strings: [in], [str.replace], [str.join] *)

Module PyStr.

(** [sub in s] on strings. *)
Fixpoint contains (sub s : string) : bool :=
  String.prefix sub s ||
  match s with
  | EmptyString => false
  | String _ rest => contains sub rest
  end.

(** [s.replace(old, new)] for a non-empty [old]: the occurrences are found
    left to right and do not overlap; the text written for an occurrence is
    not scanned again.  [skip] counts the characters of a matched occurrence
    that are still to be dropped. *)
Fixpoint replace_from (old new : string) (skip : nat) (s : string) : string :=
  match s with
  | EmptyString => EmptyString
  | String c rest =>
      match skip with
      | S k => replace_from old new k rest
      | O =>
          if String.prefix old s
          then new ++ replace_from old new (String.length old - 1) rest
          else String c (replace_from old new 0 rest)
      end
  end.

(** [s.replace("", new)] puts [new] before every character and at the end. *)
Fixpoint replace_empty (new s : string) : string :=
  match s with
  | EmptyString => new
  | String c rest => new ++ String c (replace_empty new rest)
  end.

Definition replace (s old new : string) : string :=
  match old with
  | EmptyString => replace_empty new s
  | String _ _ => replace_from old new 0 s
  end.

(** [sep.join(l)]. *)
Fixpoint join (sep : string) (l : list string) : string :=
  match l with
  | [] => ""
  | [x] => x
  | x :: rest => x ++ sep ++ join sep rest
  end.

(** [c in s] for one character. *)
Fixpoint has_char (c : ascii) (s : string) : bool :=
  match s with
  | EmptyString => false
  | String d rest => Ascii.eqb c d || has_char c rest
  end.

(** [str(n)] for an [int]. *)
Definition of_Z (z : Z) : string := NilZero.string_of_int (Z.to_int z).

End PyStr.

(** ** Python values *)

(** Exceptions: the class and the message ([str(e)]).  Every class here is a
    subclass of [Exception], so [except Exception] catches all of them. *)
Inductive exn_class :=
| ValueError | TypeError | OverflowError | RuntimeError
| OtherException (name : string).

Record exn := mkExn { exn_cls : exn_class; exn_msg : string }.

(** The JSON-shaped values a variable store holds.  [F] is the type of
    Python floats. *)
Inductive pyval (F : Type) :=
| VNone
| VBool (b : bool)
| VInt (z : Z)
| VFloat (f : F)
| VStr (s : string)
| VList (l : list (pyval F))
| VDict (d : list (string * pyval F)).

Arguments VNone {F}.
Arguments VBool {F} b.
Arguments VInt {F} z.
Arguments VFloat {F} f.
Arguments VStr {F} s.
Arguments VList {F} l.
Arguments VDict {F} d.

(** The primitives of the Python runtime the engine relies on and that are
    not spelled out here: float arithmetic and the quoting of [repr] on
    strings. *)
Class PyPrims (F : Type) := {
  float_of_int : Z -> option F;       (* float(n); None is OverflowError *)
  float_of_str : string -> option F;  (* float(s); None is ValueError *)
  float_str : F -> string;            (* str(x) *)
  float_nonzero : F -> bool;          (* bool(x) *)
  float_lt : F -> F -> bool;          (* x < y *)
  float_le : F -> F -> bool;          (* x <= y *)
  str_repr : string -> string         (* repr(s) *)
}.

(** Insertion-ordered dictionaries with string keys. *)
Module Dict.
Section Dict.
Context {V : Type}.

Definition t := list (string * V).

(** [d.get(k)] *)
Fixpoint get (k : string) (d : t) : option V :=
  match d with
  | [] => None
  | (k', v) :: rest => if String.eqb k k' then Some v else get k rest
  end.

(** [k in d] *)
Definition mem (k : string) (d : t) : bool :=
  match get k d with Some _ => true | None => false end.

(** [d[k] = v]: an existing key keeps its position, a new key goes last. *)
Fixpoint set (k : string) (v : V) (d : t) : t :=
  match d with
  | [] => [(k, v)]
  | (k', v') :: rest =>
      if String.eqb k k' then (k', v) :: rest else (k', v') :: set k v rest
  end.

(** [d.update(other)] *)
Definition update (d other : t) : t :=
  fold_left (fun acc kv => set (fst kv) (snd kv) acc) other d.

(** [d.copy()] *)
Definition copy (d : t) : t := d.

Definition keys (d : t) : list string := map fst d.
End Dict.
Arguments t V : clear implicits.
End Dict.

Section PyValues.
Context {F : Type} {prims : PyPrims F}.

(** [repr(v)] *)
Fixpoint py_repr (v : pyval F) : string :=
  match v with
  | VNone => "None"
  | VBool true => "True"
  | VBool false => "False"
  | VInt z => PyStr.of_Z z
  | VFloat f => float_str f
  | VStr s => str_repr s
  | VList l => "[" ++ PyStr.join ", " (map py_repr l) ++ "]"
  | VDict d =>
      "{" ++ PyStr.join ", "
               (map (fun kv => let '(k, x) := kv in str_repr k ++ ": " ++ py_repr x) d)
          ++ "}"
  end.

(** [str(v)] *)
Definition py_str (v : pyval F) : string :=
  match v with
  | VStr s => s
  | _ => py_repr v
  end.

(** [bool(v)], the truth value used by [if], [not], [and], [or]. *)
Definition py_truthy (v : pyval F) : bool :=
  match v with
  | VNone => false
  | VBool b => b
  | VInt z => negb (z =? 0)
  | VFloat f => float_nonzero f
  | VStr s => negb (String.eqb s "")
  | VList l => match l with [] => false | _ => true end
  | VDict d => match d with [] => false | _ => true end
  end.

(** [float(v)]: the value, or the exception it raises. *)
Definition py_float (v : pyval F) : F + exn :=
  match v with
  | VNone => inr (mkExn TypeError "float() argument must be a string or a real number, not 'NoneType'")
  | VBool b =>
      match float_of_int (if b then 1 else 0) with
      | Some x => inl x
      | None => inr (mkExn OverflowError "int too large to convert to float")
      end
  | VInt z =>
      match float_of_int z with
      | Some x => inl x
      | None => inr (mkExn OverflowError "int too large to convert to float")
      end
  | VFloat f => inl f
  | VStr s =>
      match float_of_str s with
      | Some x => inl x
      | None => inr (mkExn ValueError ("could not convert string to float: " ++ str_repr s))
      end
  | VList _ => inr (mkExn TypeError "float() argument must be a string or a real number, not 'list'")
  | VDict _ => inr (mkExn TypeError "float() argument must be a string or a real number, not 'dict'")
  end.

(** [v == s] for a string literal [s]. *)
Definition py_eq_str (v : pyval F) (s : string) : bool :=
  match v with
  | VStr s' => String.eqb s' s
  | _ => false
  end.

(** [isinstance(v, bool)] *)
Definition is_bool (v : pyval F) : bool :=
  match v with VBool _ => true | _ => false end.

End PyValues.

(** ** The models: [app/models/action.py] and [app/models/script.py] *)

Inductive ActionType :=
| NAVIGATE | GOOGLE_GET | GET_VIA | BACK | FORWARD | REFRESH
| CLICK | TYPE | CLEAR | SELECT_OPTION | SCROLL | SCROLL_INTO_VIEW | HOVER
| FOCUS | DRAG_AND_DROP
| GET_TEXT | GET_ATTRIBUTE | GET_HTML | GET_PAGE_HTML | GET_PAGE_TEXT | GET_URL
| GET_TITLE | GET_COOKIES | IS_ELEMENT_PRESENT
| SOUPIFY | SOUPIFY_SELECT | SOUPIFY_SELECT_ALL
| RUN_JS | RUN_CDP
| SET_COOKIES | DELETE_COOKIES | LOAD_COOKIES_NETSCAPE
| SCREENSHOT | SCREENSHOT_ELEMENT
| NEW_TAB | SWITCH_TAB | CLOSE_TAB | GET_TABS
| SELECT_IFRAME | GET_IFRAME_BY_LINK | EXIT_IFRAME
| SLEEP | RANDOM_SLEEP | WAIT_FOR_NAVIGATION | WAIT_FOR_ELEMENT
| ENABLE_HUMAN_MODE | DISABLE_HUMAN_MODE
| FETCH_GET | FETCH_POST.

(** The members of the enumeration with their values, in declaration order. *)
Definition ActionType_members : list (string * ActionType) :=
  [ ("navigate", NAVIGATE); ("google_get", GOOGLE_GET); ("get_via", GET_VIA);
    ("back", BACK); ("forward", FORWARD); ("refresh", REFRESH);
    ("click", CLICK); ("type", TYPE); ("clear", CLEAR);
    ("select_option", SELECT_OPTION); ("scroll", SCROLL);
    ("scroll_into_view", SCROLL_INTO_VIEW); ("hover", HOVER); ("focus", FOCUS);
    ("drag_and_drop", DRAG_AND_DROP);
    ("get_text", GET_TEXT); ("get_attribute", GET_ATTRIBUTE);
    ("get_html", GET_HTML); ("get_page_html", GET_PAGE_HTML);
    ("get_page_text", GET_PAGE_TEXT); ("get_url", GET_URL);
    ("get_title", GET_TITLE); ("get_cookies", GET_COOKIES);
    ("is_element_present", IS_ELEMENT_PRESENT);
    ("soupify", SOUPIFY); ("soupify_select", SOUPIFY_SELECT);
    ("soupify_select_all", SOUPIFY_SELECT_ALL);
    ("run_js", RUN_JS); ("run_cdp", RUN_CDP);
    ("set_cookies", SET_COOKIES); ("delete_cookies", DELETE_COOKIES);
    ("load_cookies_netscape", LOAD_COOKIES_NETSCAPE);
    ("screenshot", SCREENSHOT); ("screenshot_element", SCREENSHOT_ELEMENT);
    ("new_tab", NEW_TAB); ("switch_tab", SWITCH_TAB); ("close_tab", CLOSE_TAB);
    ("get_tabs", GET_TABS);
    ("select_iframe", SELECT_IFRAME); ("get_iframe_by_link", GET_IFRAME_BY_LINK);
    ("exit_iframe", EXIT_IFRAME);
    ("sleep", SLEEP); ("random_sleep", RANDOM_SLEEP);
    ("wait_for_navigation", WAIT_FOR_NAVIGATION);
    ("wait_for_element", WAIT_FOR_ELEMENT);
    ("enable_human_mode", ENABLE_HUMAN_MODE);
    ("disable_human_mode", DISABLE_HUMAN_MODE);
    ("fetch_get", FETCH_GET); ("fetch_post", FETCH_POST) ].

(** [ActionType(s)]: lookup by value; [None] stands for the [ValueError] the
    enumeration raises on a string that is no member's value. *)
Definition ActionType_of_string (s : string) : option ActionType :=
  Dict.get s ActionType_members.

Module ActionRequest.
Record t (F : Type) := make {
  action : ActionType;
  selector : option string;
  url : option string;
  text : option string;
  value : option string;
  attribute : option string;
  script : option string;
  cookies : option (list (Dict.t (pyval F)));
  cookies_text : option string;
  seconds : option F;
  min_seconds : option F;
  max_seconds : option F;
  tab_index : option Z;
  iframe_selector : option string;
  save_as : option string;
  params : option (Dict.t (pyval F))
}.
Arguments make {F}.
Arguments action {F}.
Arguments selector {F}.
Arguments url {F}.
Arguments text {F}.
Arguments value {F}.
Arguments attribute {F}.
Arguments script {F}.
Arguments cookies {F}.
Arguments cookies_text {F}.
Arguments seconds {F}.
Arguments min_seconds {F}.
Arguments max_seconds {F}.
Arguments tab_index {F}.
Arguments iframe_selector {F}.
Arguments save_as {F}.
Arguments params {F}.
End ActionRequest.

Module ScriptStep.
Inductive t (F : Type) := make {
  action : string;
  selector : option string;
  url : option string;
  text : option string;
  value : option string;
  script : option string;
  save_as : option string;
  condition : option (Dict.t (pyval F));
  then_steps : option (list (t F));
  else_steps : option (list (t F));
  loop_range : option (list Z);
  loop_variable : option string;
  loop_steps : option (list (t F));
  on_error : option string;
  max_retry : option Z
}.
Arguments make {F}.
Arguments action {F}.
Arguments selector {F}.
Arguments url {F}.
Arguments text {F}.
Arguments value {F}.
Arguments script {F}.
Arguments save_as {F}.
Arguments condition {F}.
Arguments then_steps {F}.
Arguments else_steps {F}.
Arguments loop_range {F}.
Arguments loop_variable {F}.
Arguments loop_steps {F}.
Arguments on_error {F}.
Arguments max_retry {F}.

(** A step with only its [action] given: every other field has the default
    the model declares ([on_error = "abort"], [max_retry = 3], the rest
    [None]). *)
Definition default {F} (a : string) : t F :=
  make a None None None None None None None None None None None None
       (Some "abort") (Some 3).
End ScriptStep.

Module Script.
Record t (F : Type) := make {
  name : string;
  description : option string;
  variables : Dict.t (pyval F);
  session_config : option (Dict.t (pyval F));
  steps : list (ScriptStep.t F)
}.
Arguments make {F}.
Arguments name {F}.
Arguments description {F}.
Arguments variables {F}.
Arguments session_config {F}.
Arguments steps {F}.
End Script.

(** ** The engine's state and its monad *)

(** What the loggers of the two modules record, and the pause before a retry. *)
Inductive event (F : Type) :=
| LogScriptStart (name : string)
| LogScriptCompleted (name : string)
| LogScriptFailed (e : exn)
| LogInvalidCondition
| LogUnknownOperator (op : pyval F)
| LogConditionResult (r : pyval F)
| LogLoopStart (start stop : Z) (loop_var : string)
| LogSaved (name : string) (v : pyval F)
| LogStepError (e : exn)
| LogSkipping (e : exn)
| LogRetrying (attempt max_retry : Z)
| LogAborting (e : exn)
| LogMaxRetries (e : exn)
| LogExecutingAction (a : ActionType)
| LogHumanMode (enabled : bool)
| TimeSleep (secs : Z).

Arguments LogScriptStart {F}.
Arguments LogScriptCompleted {F}.
Arguments LogScriptFailed {F}.
Arguments LogInvalidCondition {F}.
Arguments LogUnknownOperator {F}.
Arguments LogConditionResult {F}.
Arguments LogLoopStart {F}.
Arguments LogSaved {F}.
Arguments LogStepError {F}.
Arguments LogSkipping {F}.
Arguments LogRetrying {F}.
Arguments LogAborting {F}.
Arguments LogMaxRetries {F}.
Arguments LogExecutingAction {F}.
Arguments LogHumanMode {F}.
Arguments TimeSleep {F}.

(** The fields of a [ScriptEngine] that execution reads and writes.
    [executor_variables] is [self.action_executor.variables]: the same object
    as [variables] when the engine was built from a non-empty store, a second
    dictionary otherwise ([variables or {}] in both constructors); the engine
    writes every update to both.  [driver_state] is the state of the browser
    behind the executor, [log] the events in the order they happened.  The
    wall clock ([start_time], [execution_time]) is left out. *)
Record Engine (F W : Type) := mkEngine {
  variables : Dict.t (pyval F);
  executor_variables : Dict.t (pyval F);
  steps_completed : Z;
  driver_state : W;
  log : list (event F)
}.
Arguments mkEngine {F W}.
Arguments variables {F W}.
Arguments executor_variables {F W}.
Arguments steps_completed {F W}.
Arguments driver_state {F W}.
Arguments log {F W}.

(** A computation returns a value or raises. *)
Inductive Result (A : Type) :=
| Ok (a : A)
| Raise (e : exn).
Arguments Ok {A}.
Arguments Raise {A}.

(** The result record of [execute_script] (without [execution_time]). *)
Record RunResult (F : Type) := mkRunResult {
  success : bool;
  result_steps_completed : Z;
  result_variables : Dict.t (pyval F);
  error : option string
}.
Arguments mkRunResult {F}.
Arguments success {F}.
Arguments result_steps_completed {F}.
Arguments result_variables {F}.
Arguments error {F}.

Section Monad.
Context {F W : Type}.

Definition M (A : Type) : Type := Engine F W -> Result A * Engine F W.

Definition ret {A} (a : A) : M A := fun st => (Ok a, st).

Definition bind {A B} (m : M A) (k : A -> M B) : M B :=
  fun st =>
    match m st with
    | (Ok a, st') => k a st'
    | (Raise e, st') => (Raise e, st')
    end.

Definition raise {A} (e : exn) : M A := fun st => (Raise e, st).

(** [try: m  except Exception as e: h e].  What [m] did to the state before
    it raised stays done. *)
Definition try_except {A} (m : M A) (h : exn -> M A) : M A :=
  fun st =>
    match m st with
    | (Ok a, st') => (Ok a, st')
    | (Raise e, st') => h e st'
    end.

Definition get_variables : M (Dict.t (pyval F)) :=
  fun st => (Ok (variables st), st).

Definition get_executor_variables : M (Dict.t (pyval F)) :=
  fun st => (Ok (executor_variables st), st).

Definition logger (ev : event F) : M unit :=
  fun st =>
    (Ok tt, mkEngine (variables st) (executor_variables st) (steps_completed st)
                     (driver_state st) (log st ++ [ev])).

(** [self.steps_completed += 1] *)
Definition incr_steps_completed : M unit :=
  fun st =>
    (Ok tt, mkEngine (variables st) (executor_variables st) (steps_completed st + 1)
                     (driver_state st) (log st)).

(** [self.steps_completed = 0] *)
Definition reset_steps_completed : M unit :=
  fun st =>
    (Ok tt, mkEngine (variables st) (executor_variables st) 0
                     (driver_state st) (log st)).

(** [self.variables[k] = v; self.action_executor.variables[k] = v] *)
Definition set_variable (k : string) (v : pyval F) : M unit :=
  fun st =>
    (Ok tt, mkEngine (Dict.set k v (variables st)) (Dict.set k v (executor_variables st))
                     (steps_completed st) (driver_state st) (log st)).

(** [self.variables.update(d); self.action_executor.variables.update(d)] *)
Definition update_variables (d : Dict.t (pyval F)) : M unit :=
  fun st =>
    (Ok tt, mkEngine (Dict.update (variables st) d) (Dict.update (executor_variables st) d)
                     (steps_completed st) (driver_state st) (log st)).

(** A call into the browser driver. *)
Definition call_driver (f : W -> (pyval F + exn) * W) : M (pyval F) :=
  fun st =>
    let '(r, w) := f (driver_state st) in
    let st' := mkEngine (variables st) (executor_variables st) (steps_completed st)
                        w (log st) in
    match r with
    | inl v => (Ok v, st')
    | inr e => (Raise e, st')
    end.

(** [for x in l: f x] *)
Fixpoint for_each {A} (l : list A) (f : A -> M unit) : M unit :=
  match l with
  | [] => ret tt
  | x :: rest => bind (f x) (fun _ => for_each rest f)
  end.

End Monad.

Declare Scope engine_scope.
Delimit Scope engine_scope with engine.
Notation "x <- m ;; k" := (bind m (fun x => k))
  (at level 61, m at next level, right associativity) : engine_scope.
Notation "m ;;; k" := (bind m (fun _ => k))
  (at level 61, right associativity) : engine_scope.

(** [range(a, b)] *)
Definition py_range (a b : Z) : list Z :=
  map (fun k => a + Z.of_nat k) (seq 0 (Z.to_nat (b - a))).

(** Truth values of optional fields: [None], [""], [[]] and [{}] are false. *)
Definition truthy_str (o : option string) : bool :=
  match o with Some s => negb (String.eqb s "") | None => false end.

Definition truthy_list {A} (o : option (list A)) : bool :=
  match o with Some (_ :: _) => true | _ => false end.

(** [o or default] on an optional string. *)
Definition str_or (o : option string) (default : string) : string :=
  match o with
  | Some s => if String.eqb s "" then default else s
  | None => default
  end.

(** [o or default] on an optional integer. *)
Definition int_or (o : option Z) (default : Z) : Z :=
  match o with
  | Some z => if z =? 0 then default else z
  | None => default
  end.

Definition list_or_nil {A} (o : option (list A)) : list A :=
  match o with Some l => l | None => [] end.

(** ** [ActionExecutor] and [ScriptEngine] *)

Section Interpolation.
Context {F : Type} {prims : PyPrims F}.

(** One turn of the loop of [interpolate_value]. *)
Definition interpolate_one (result : string) (item : string * pyval F) : string :=
  let '(var_name, var_value) := item in
  let placeholder := "$" ++ var_name in
  if PyStr.contains placeholder result
  then PyStr.replace result placeholder (py_str var_value)
  else result.

(** The string case of [interpolate_value]: the loop over
    [self.variables.items()]. *)
Definition interpolate_string (vars : Dict.t (pyval F)) (value : string) : string :=
  fold_left interpolate_one vars value.

(** [interpolate_value], the same code in [ScriptEngine] and in
    [ActionExecutor]; [vars] is [self.variables]. *)
Definition interpolate_value (vars : Dict.t (pyval F)) (value : pyval F) : pyval F :=
  match value with
  | VStr s => VStr (interpolate_string vars s)
  | _ => value
  end.

(** [ActionExecutor.interpolate_params] *)
Definition interpolate_params (vars : Dict.t (pyval F)) (action : ActionRequest.t F)
  : ActionRequest.t F :=
  let field := option_map (interpolate_string vars) in
  ActionRequest.make
    (ActionRequest.action action)
    (field (ActionRequest.selector action))
    (field (ActionRequest.url action))
    (field (ActionRequest.text action))
    (field (ActionRequest.value action))
    (field (ActionRequest.attribute action))
    (field (ActionRequest.script action))
    (ActionRequest.cookies action)
    (field (ActionRequest.cookies_text action))
    (ActionRequest.seconds action)
    (ActionRequest.min_seconds action)
    (ActionRequest.max_seconds action)
    (ActionRequest.tab_index action)
    (field (ActionRequest.iframe_selector action))
    (ActionRequest.save_as action)
    (option_map (map (fun kv => (fst kv, interpolate_value vars (snd kv))))
                (ActionRequest.params action)).

End Interpolation.

Section Validation.
Context {F : Type}.

Definition missing_param (key : string) (params : option (Dict.t (pyval F))) : bool :=
  match params with
  | Some (x :: d) => negb (Dict.mem key (x :: d))
  | _ => true
  end.

Definition require_selector (name : string) (action : ActionRequest.t F) : option string :=
  if truthy_str (ActionRequest.selector action) then None
  else Some ("Selector is required for " ++ name ++ " action").

Definition require_url (name : string) (action : ActionRequest.t F) : option string :=
  if truthy_str (ActionRequest.url action) then None
  else Some ("URL is required for " ++ name ++ " action").

(** The checks each handler of [ActionExecutor] makes on the request before
    it touches the driver; the result is the message of the [ValueError]
    raised, if any. *)
Definition validate (action : ActionRequest.t F) : option string :=
  match ActionRequest.action action with
  | NAVIGATE => require_url "navigate" action
  | GOOGLE_GET => require_url "google_get" action
  | GET_VIA =>
      match require_url "get_via" action with
      | Some m => Some m
      | None =>
          if missing_param "via" (ActionRequest.params action)
          then Some "'via' parameter is required for get_via action" else None
      end
  | CLICK => require_selector "click" action
  | TYPE =>
      match require_selector "type" action with
      | Some m => Some m
      | None =>
          match ActionRequest.text action with
          | None => Some "Text is required for type action"
          | Some _ => None
          end
      end
  | CLEAR => require_selector "clear" action
  | SELECT_OPTION =>
      match require_selector "select_option" action with
      | Some m => Some m
      | None =>
          if truthy_str (ActionRequest.value action) then None
          else Some "Value is required for select_option action"
      end
  | SCROLL_INTO_VIEW => require_selector "scroll_into_view" action
  | HOVER => require_selector "hover" action
  | FOCUS => require_selector "focus" action
  | DRAG_AND_DROP =>
      if truthy_str (ActionRequest.selector action) then
        if missing_param "target" (ActionRequest.params action)
        then Some "Target selector is required in params for drag_and_drop action"
        else None
      else Some "Source selector is required for drag_and_drop action"
  | GET_TEXT => require_selector "get_text" action
  | GET_ATTRIBUTE =>
      match require_selector "get_attribute" action with
      | Some m => Some m
      | None =>
          if truthy_str (ActionRequest.attribute action) then None
          else Some "Attribute is required for get_attribute action"
      end
  | GET_HTML => require_selector "get_html" action
  | IS_ELEMENT_PRESENT => require_selector "is_element_present" action
  | SOUPIFY_SELECT => require_selector "soupify_select" action
  | SOUPIFY_SELECT_ALL => require_selector "soupify_select_all" action
  | RUN_JS =>
      if truthy_str (ActionRequest.script action) then None
      else Some "Script is required for run_js action"
  | RUN_CDP =>
      if missing_param "cmd" (ActionRequest.params action)
      then Some "CDP command is required in params" else None
  | SET_COOKIES =>
      if truthy_list (ActionRequest.cookies action) then None
      else Some "Cookies are required for set_cookies action"
  | LOAD_COOKIES_NETSCAPE =>
      if truthy_str (ActionRequest.cookies_text action) then None
      else Some "Cookies text is required for load_cookies_netscape action"
  | SCREENSHOT_ELEMENT => require_selector "screenshot_element" action
  | SWITCH_TAB =>
      match ActionRequest.tab_index action with
      | None => Some "Tab index is required for switch_tab action"
      | Some _ => None
      end
  | SELECT_IFRAME =>
      if truthy_str (ActionRequest.iframe_selector action) then None
      else Some "Iframe selector is required for select_iframe action"
  | GET_IFRAME_BY_LINK => require_url "get_iframe_by_link" action
  | SLEEP =>
      match ActionRequest.seconds action with
      | None => Some "Seconds is required for sleep action"
      | Some _ => None
      end
  | RANDOM_SLEEP =>
      match ActionRequest.min_seconds action, ActionRequest.max_seconds action with
      | Some _, Some _ => None
      | _, _ => Some "min_seconds and max_seconds are required for random_sleep action"
      end
  | WAIT_FOR_ELEMENT => require_selector "wait_for_element" action
  | FETCH_GET => require_url "fetch_get" action
  | FETCH_POST => require_url "fetch_post" action
  | BACK | FORWARD | REFRESH | SCROLL | GET_PAGE_HTML | GET_PAGE_TEXT | GET_URL
  | GET_TITLE | GET_COOKIES | SOUPIFY | DELETE_COOKIES | SCREENSHOT | NEW_TAB
  | CLOSE_TAB | GET_TABS | EXIT_IFRAME | WAIT_FOR_NAVIGATION
  | ENABLE_HUMAN_MODE | DISABLE_HUMAN_MODE => None
  end.

End Validation.

(** The operators [evaluate_condition] knows, and the numeric ones. *)
Definition numeric_operators : list string :=
  ["greater_than"; "less_than"; "greater_equal"; "less_equal"].

Definition known_operators : list string :=
  ["equals"; "not_equals"; "contains"; "not_contains"] ++ numeric_operators
  ++ ["exists"; "not_exists"; "is_empty"; "not_empty"].

Section Engine.
Context {F W : Type} {prims : PyPrims F}.

(** The browser behind [ActionExecutor]: what a handler does once the
    request passed its checks.  It returns the handler's result or raises. *)
Variable driver : ActionRequest.t F -> W -> (pyval F + exn) * W.

Local Open Scope engine_scope.

Local Abbreviation M := (@M F W).

(** [ActionExecutor.execute] *)
Definition ActionExecutor_execute (action : ActionRequest.t F) : M (pyval F) :=
  vars <- get_executor_variables ;;
  let action := interpolate_params vars action in
  logger (LogExecutingAction (ActionRequest.action action)) ;;;
  match validate action with
  | Some msg => raise (mkExn ValueError msg)
  | None =>
      match ActionRequest.action action with
      | ENABLE_HUMAN_MODE => logger (LogHumanMode true) ;;; ret VNone
      | DISABLE_HUMAN_MODE => logger (LogHumanMode false) ;;; ret VNone
      | _ => call_driver (driver action)
      end
  end.

(** [ScriptEngine.__init__] for an existing session whose driver is in
    state [w]. *)
Definition ScriptEngine_init (variables : option (Dict.t (pyval F))) (w : W)
  : Engine F W :=
  let vars := list_or_nil variables in
  mkEngine vars vars 0 w [].

(** [condition.get(k)] *)
Definition condition_get (k : string) (condition : Dict.t (pyval F)) : pyval F :=
  match Dict.get k condition with
  | Some v => v
  | None => VNone
  end.

(** [self.variables.get(name)] for an arbitrary value [name]: lists and
    dictionaries are unhashable, and only a string can be a key. *)
Definition variables_get (name : pyval F) : M (pyval F) :=
  vars <- get_variables ;;
  match name with
  | VList _ => raise (mkExn TypeError "unhashable type: 'list'")
  | VDict _ => raise (mkExn TypeError "unhashable type: 'dict'")
  | VStr s =>
      match Dict.get s vars with
      | Some v => ret v
      | None => ret VNone
      end
  | _ => ret VNone
  end.

(** [try: return cmp(float(a), float(b))
     except (ValueError, TypeError): return False] *)
Definition compare_floats (cmp : F -> F -> bool) (a b : pyval F) : M (pyval F) :=
  let except (e : exn) : M (pyval F) :=
    match exn_cls e with
    | ValueError | TypeError => ret (VBool false)
    | _ => raise e
    end in
  match py_float a with
  | inr e => except e
  | inl x =>
      match py_float b with
      | inr e => except e
      | inl y => ret (VBool (cmp x y))
      end
  end.

(** The [if]/[elif] chain of [evaluate_condition] on the operator.  The
    value returned is the Python value of the [return] expression, which for
    [not_empty] need not be a [bool]. *)
Definition apply_operator (operator actual_value expected_value : pyval F)
  : M (pyval F) :=
  if py_eq_str operator "equals" then
    ret (VBool (String.eqb (py_str actual_value) (py_str expected_value)))
  else if py_eq_str operator "not_equals" then
    ret (VBool (negb (String.eqb (py_str actual_value) (py_str expected_value))))
  else if py_eq_str operator "contains" then
    ret (VBool (PyStr.contains (py_str expected_value) (py_str actual_value)))
  else if py_eq_str operator "not_contains" then
    ret (VBool (negb (PyStr.contains (py_str expected_value) (py_str actual_value))))
  else if py_eq_str operator "greater_than" then
    compare_floats (fun x y => float_lt y x) actual_value expected_value
  else if py_eq_str operator "less_than" then
    compare_floats (fun x y => float_lt x y) actual_value expected_value
  else if py_eq_str operator "greater_equal" then
    compare_floats (fun x y => float_le y x) actual_value expected_value
  else if py_eq_str operator "less_equal" then
    compare_floats (fun x y => float_le x y) actual_value expected_value
  else if py_eq_str operator "exists" then
    ret (VBool (match actual_value with VNone => false | _ => true end))
  else if py_eq_str operator "not_exists" then
    ret (VBool (match actual_value with VNone => true | _ => false end))
  else if py_eq_str operator "is_empty" then
    ret (VBool (negb (py_truthy actual_value)
                || (String.length (py_str actual_value) =? 0)%nat))
  else if py_eq_str operator "not_empty" then
    if py_truthy actual_value
    then ret (VBool (0 <? String.length (py_str actual_value))%nat)
    else ret actual_value
  else
    logger (LogUnknownOperator operator) ;;; ret (VBool false).

(** [ScriptEngine.evaluate_condition] *)
Definition evaluate_condition (condition : Dict.t (pyval F)) : M (pyval F) :=
  let variable_name := condition_get "variable" condition in
  let operator := condition_get "operator" condition in
  let expected_value := condition_get "value" condition in
  if negb (py_truthy variable_name) || negb (py_truthy operator) then
    logger LogInvalidCondition ;;; ret (VBool false)
  else
    actual_value <- variables_get variable_name ;;
    vars <- get_variables ;;
    let expected_value := interpolate_value vars expected_value in
    apply_operator operator actual_value expected_value.

(** [ScriptEngine._step_to_action] *)
Definition _step_to_action (step : ScriptStep.t F) : M (ActionRequest.t F) :=
  match ActionType_of_string (ScriptStep.action step) with
  | None =>
      raise (mkExn ValueError
               (str_repr (ScriptStep.action step) ++ " is not a valid ActionType"))
  | Some action =>
      vars <- get_variables ;;
      let field (o : option string) :=
        if truthy_str o then option_map (interpolate_string vars) o else None in
      ret (ActionRequest.make action
             (field (ScriptStep.selector step))
             (field (ScriptStep.url step))
             (field (ScriptStep.text step))
             (field (ScriptStep.value step))
             None
             (field (ScriptStep.script step))
             None None None None None None None None None)
  end.

(** The [except Exception as e] block of [execute_step].  [retry] is the
    recursive call [self.execute_step(step, retry_count + 1)]. *)
Definition on_exception (step : ScriptStep.t F) (retry_count : Z)
           (retry : M (pyval F)) (e : exn) : M (pyval F) :=
  logger (LogStepError e) ;;;
  let error_strategy := str_or (ScriptStep.on_error step) "abort" in
  let max_retry := int_or (ScriptStep.max_retry step) 3 in
  if String.eqb error_strategy "skip" then
    logger (LogSkipping e) ;;;
    incr_steps_completed ;;;
    ret VNone
  else if String.eqb error_strategy "retry" && (retry_count <? max_retry) then
    logger (LogRetrying (retry_count + 1) max_retry) ;;;
    logger (TimeSleep 1) ;;;
    retry
  else if String.eqb error_strategy "abort" then
    logger (LogAborting e) ;;;
    raise e
  else
    logger (LogMaxRetries e) ;;;
    raise e.

(** The [try] block of [execute_step] wrapped by its [except] block, for
    the attempts numbered [retry_count], [retry_count + 1], ...  The
    recursion of the source on [retry_count] goes on while
    [retry_count < max_retry]; [fuel] bounds the number of recursive calls
    and [execute_step] below supplies [max_retry - retry_count], which is
    all the source can make.  The interpreter's limit on the depth of calls
    is not part of the model: a [max_retry] in the hundreds, for which the
    source would end in [RecursionError], is outside what it describes. *)
Fixpoint attempts (step : ScriptStep.t F) (try_block : M (pyval F))
         (fuel : nat) (retry_count : Z) : M (pyval F) :=
  try_except try_block
    (on_exception step retry_count
       (match fuel with
        | S fuel' => attempts step try_block fuel' (retry_count + 1)
        | O => ret VNone
        end)).

Definition retries_left (step : ScriptStep.t F) (retry_count : Z) : nat :=
  Z.to_nat (int_or (ScriptStep.max_retry step) 3 - retry_count).

(** The three branches of the [try] block.  [run_then], [run_else] and
    [run_loop] are [for s in steps: self.execute_step(s)] over
    [step.then_steps], [step.else_steps] and [step.loop_steps]. *)
Definition conditional_branch (run_then run_else : M unit)
           (step : ScriptStep.t F) : M (pyval F) :=
  condition_result <- evaluate_condition (list_or_nil (ScriptStep.condition step)) ;;
  logger (LogConditionResult condition_result) ;;;
  (if py_truthy condition_result && truthy_list (ScriptStep.then_steps step) then
     run_then
   else if negb (py_truthy condition_result) && truthy_list (ScriptStep.else_steps step) then
     run_else
   else ret tt) ;;;
  incr_steps_completed ;;;
  ret VNone.

Definition loop_branch (run_loop : M unit) (step : ScriptStep.t F) : M (pyval F) :=
  match list_or_nil (ScriptStep.loop_range step) with
  | [start; stop] =>
      let loop_var := str_or (ScriptStep.loop_variable step) "i" in
      logger (LogLoopStart start stop loop_var) ;;;
      for_each (py_range start (stop + 1))
        (fun i => set_variable loop_var (VInt i) ;;; run_loop) ;;;
      incr_steps_completed ;;;
      ret VNone
  | _ => raise (mkExn ValueError "loop_range must have exactly 2 elements: [start, end]")
  end.

Definition action_branch (step : ScriptStep.t F) : M (pyval F) :=
  action_request <- _step_to_action step ;;
  result <- ActionExecutor_execute action_request ;;
  (if truthy_str (ScriptStep.save_as step) then
     match ScriptStep.save_as step with
     | Some name => set_variable name result ;;; logger (LogSaved name result)
     | None => ret tt
     end
   else ret tt) ;;;
  incr_steps_completed ;;;
  ret result.

(** The [try] block of [execute_step]. *)
Definition try_block (run_then run_else run_loop : M unit)
           (step : ScriptStep.t F) : M (pyval F) :=
  if truthy_list (ScriptStep.condition step) && truthy_list (ScriptStep.then_steps step) then
    conditional_branch run_then run_else step
  else if truthy_list (ScriptStep.loop_range step)
          && truthy_list (ScriptStep.loop_steps step) then
    loop_branch run_loop step
  else
    action_branch step.

(** [for s in steps: self.execute_step(s)], for [exec s] the call
    [self.execute_step(s)]. *)
Fixpoint run_steps (exec : ScriptStep.t F -> M (pyval F))
         (steps : list (ScriptStep.t F)) : M unit :=
  match steps with
  | [] => ret tt
  | s :: rest => exec s ;;; run_steps exec rest
  end.

Definition run_body (exec : ScriptStep.t F -> M (pyval F))
           (steps : option (list (ScriptStep.t F))) : M unit :=
  match steps with
  | Some steps => run_steps exec steps
  | None => ret tt
  end.

(** [ScriptEngine.execute_step] *)
Fixpoint execute_step (step : ScriptStep.t F) (retry_count : Z) {struct step}
  : M (pyval F) :=
  let exec := fun s => execute_step s 0 in
  attempts step
    (try_block (run_body exec (ScriptStep.then_steps step))
               (run_body exec (ScriptStep.else_steps step))
               (run_body exec (ScriptStep.loop_steps step)) step)
    (retries_left step retry_count) retry_count.

End Engine.

Section Runner.
Context {F W : Type} {prims : PyPrims F}.
Variable driver : ActionRequest.t F -> W -> (pyval F + exn) * W.

Local Open Scope engine_scope.
Local Abbreviation M := (@M F W).

Definition get_steps_completed : M Z :=
  fun st => (Ok (steps_completed st), st).

(** The start of [execute_script]: reset the counter and merge the
    script's variables into the engine's. *)
Definition prepare (script : Script.t F) : M unit :=
  logger (LogScriptStart (Script.name script)) ;;;
  reset_steps_completed ;;;
  match Script.variables script with
  | [] => ret tt
  | _ :: _ => update_variables (Script.variables script)
  end.

(** [ScriptEngine.execute_script] *)
Definition execute_script (script : Script.t F) : M (RunResult F) :=
  prepare script ;;;
  outcome <-
    try_except
      (run_steps (fun step => execute_step driver step 0) (Script.steps script) ;;;
       logger (LogScriptCompleted (Script.name script)) ;;;
       ret (true, None))
      (fun e =>
         logger (LogScriptFailed e) ;;;
         ret (false, Some (exn_msg e))) ;;
  n <- get_steps_completed ;;
  vars <- get_variables ;;
  ret (mkRunResult (fst outcome) n (Dict.copy vars) (snd outcome)).

(** The merge of [run_script] ([app/api/scripts.py]): a copy of the
    script's variables, updated with the variables of the request. *)
Definition merge_request_variables (script : Script.t F)
           (request_variables : option (Dict.t (pyval F))) : Dict.t (pyval F) :=
  let variables := Dict.copy (Script.variables script) in
  match request_variables with
  | Some (x :: d) => Dict.update variables (x :: d)
  | _ => variables
  end.

(** The part of [run_script] between the session checks and the response:
    merge the variables, build the engine, run. *)
Definition run_script (script : Script.t F)
           (request_variables : option (Dict.t (pyval F))) (w : W)
  : Result (RunResult F) * Engine F W :=
  let variables := merge_request_variables script request_variables in
  let engine := ScriptEngine_init (Some variables) w in
  execute_script script engine.

End Runner.

(** ** A small runtime to run the model on examples

    Floats restricted to the integers, and a [repr] that only adds quotes.
    The general theorems below hold for every [PyPrims]; the examples are
    evaluated on this one. *)
Module Toy.

Definition parse_int (s : string) : option Z :=
  match s with
  | EmptyString => None
  | _ => option_map Z.of_int (NilZero.int_of_string s)
  end.

#[global] Instance prims : PyPrims Z := {|
  float_of_int := fun z => Some z;
  float_of_str := parse_int;
  float_str := fun z => PyStr.of_Z z ++ ".0";
  float_nonzero := fun z => negb (z =? 0);
  float_lt := Z.ltb;
  float_le := Z.leb;
  str_repr := fun s => "'" ++ s ++ "'"
|}.

Definition val := pyval Z.
Definition step := ScriptStep.t Z.

(** A driver that refuses every request. *)
Definition failing_driver (a : ActionRequest.t Z) (w : unit) : (val + exn) * unit :=
  (inr (mkExn (OtherException "Exception") "driver failure"), w).

(** A driver that counts its calls and returns the count. *)
Definition counting_driver (a : ActionRequest.t Z) (w : Z) : (val + exn) * Z :=
  (inl (VInt (w + 1)), w + 1).

(** A driver that always returns [None]. *)
Definition idle_driver (a : ActionRequest.t Z) (w : unit) : (val + exn) * unit :=
  (inl VNone, w).

End Toy.

(** ** What the properties below speak of *)

Section Observations.
Context {F W : Type} {prims : PyPrims F}.

(** The state [prepare] leaves. *)
Definition prepared (script : Script.t F) (st : Engine F W) : Engine F W :=
  mkEngine (Dict.update (variables st) (Script.variables script))
           (Dict.update (executor_variables st) (Script.variables script))
           0 (driver_state st) (log st ++ [LogScriptStart (Script.name script)]).

Definition is_step_error (ev : event F) : bool :=
  match ev with LogStepError _ => true | _ => false end.

Definition is_retrying (ev : event F) : bool :=
  match ev with LogRetrying _ _ => true | _ => false end.

(** How many attempts failed: the number of "Error executing step" records. *)
Definition count_errors (l : list (event F)) : nat :=
  List.length (filter is_step_error l).

(** How many times a step was started again. *)
Definition count_retries (l : list (event F)) : nat :=
  List.length (filter is_retrying l).

(** A computation is quiet when it records neither a failed attempt nor a
    retry, however it ends. *)
Definition quiet {A} (m : @M F W A) : Prop :=
  forall st,
    count_errors (log (snd (m st))) = count_errors (log st) /\
    count_retries (log (snd (m st))) = count_retries (log st).

(** A step that is dispatched as an action. *)
Definition dispatched_as_action (step : ScriptStep.t F) : Prop :=
  truthy_list (ScriptStep.condition step) && truthy_list (ScriptStep.then_steps step) = false /\
  truthy_list (ScriptStep.loop_range step) && truthy_list (ScriptStep.loop_steps step) = false.

(** The value of the variable as [self.variables.get] gives it. *)
Definition lookup (n : string) (st : Engine F W) : pyval F :=
  match Dict.get n (variables st) with
  | Some v => v
  | None => VNone
  end.

End Observations.

(** ** Inputs of the examples *)

(** An action step with an error policy, every other field at its default. *)
Definition action_step_with_policy (a on_error : string) (max_retry : option Z)
  : ScriptStep.t Z :=
  ScriptStep.make a None None None None None None None None None None None None
                  (Some on_error) max_retry.

(** A step with an empty [condition] dictionary and a one-step [then] body. *)
Definition empty_condition_step : ScriptStep.t Z :=
  ScriptStep.make "get_url" None None None None None None
                  (Some []) (Some [ScriptStep.default "click"]) None
                  None None None (Some "abort") (Some 3).

(** A loop over [[1, 3]] whose body is one action that always succeeds. *)
Definition loop_1_3 : ScriptStep.t Z :=
  ScriptStep.make "get_url" None None None None None None
                  None None None
                  (Some [1; 3]) None (Some [ScriptStep.default "enable_human_mode"])
                  (Some "abort") (Some 3).

(** The action kinds whose handler requires a field that a script step does
    not have: a parameter map, an attribute, cookies, a tab index, an iframe
    selector or timing values. *)
Definition kinds_out_of_reach : list ActionType :=
  [GET_VIA; DRAG_AND_DROP; GET_ATTRIBUTE; RUN_CDP; SET_COOKIES;
   LOAD_COOKIES_NETSCAPE; SWITCH_TAB; SELECT_IFRAME; SLEEP; RANDOM_SLEEP].

Definition navigate_step : ScriptStep.t Z :=
  ScriptStep.make "navigate" None (Some "https://$host/") None None None None
                  None None None None None None (Some "abort") (Some 3).

(** ** Relations between the states of a run *)

Section Preservation.
Context {F W : Type}.

(** [m] takes every state to one that [R] relates to it, whether it returns
    or raises. *)
Definition preserves (R : Engine F W -> Engine F W -> Prop) {A} (m : @M F W A) : Prop :=
  forall st, R st (snd (m st)).

(** The engine's and the executor's stores hold the same items in the same
    order. *)
Definition stores_in_sync (st : Engine F W) : Prop :=
  variables st = executor_variables st.

(** Every variable of [st] is still a variable of [st']. *)
Definition keeps_variables (st st' : Engine F W) : Prop :=
  forall k, Dict.mem k (variables st) = true -> Dict.mem k (variables st') = true.

(** Only the log differs. *)
Definition same_but_log (st st' : Engine F W) : Prop :=
  variables st' = variables st /\
  executor_variables st' = executor_variables st /\
  steps_completed st' = steps_completed st /\
  driver_state st' = driver_state st.

(** The stores and the counter are the same. *)
Definition same_stores_and_count (st st' : Engine F W) : Prop :=
  variables st' = variables st /\
  executor_variables st' = executor_variables st /\
  steps_completed st' = steps_completed st.

End Preservation.

(** All steps of an optional body satisfy [P]. *)
Definition Forall_body {A} (P : A -> Prop) (o : option (list A)) : Prop :=
  match o with
  | Some l => Forall P l
  | None => True
  end.

(** ** Names for parts of the engine *)

Section EngineParts.
Context {F W : Type} {prims : PyPrims F}.
Variable driver : ActionRequest.t F -> W -> (pyval F + exn) * W.

(** The [try] block of [execute_step] for [step], with the bodies run by
    [execute_step] itself. *)
Definition step_try_block (step : ScriptStep.t F) : @M F W (pyval F) :=
  let exec := fun s => execute_step driver s 0 in
  try_block driver
    (run_body exec (ScriptStep.then_steps step))
    (run_body exec (ScriptStep.else_steps step))
    (run_body exec (ScriptStep.loop_steps step)) step.

(** The error policy in force: [step.on_error or "abort"]. *)
Definition error_strategy (step : ScriptStep.t F) : string :=
  str_or (ScriptStep.on_error step) "abort".

End EngineParts.

(** The condition [{"variable": n, "operator": o, "value": v}]. *)
Definition condition_of {F} (n o : string) (v : pyval F) : Dict.t (pyval F) :=
  [("variable", VStr n); ("operator", VStr o); ("value", v)].

(** [a.value] for a member of [ActionType]. *)
Definition ActionType_value (a : ActionType) : string :=
  match a with
  | NAVIGATE => "navigate" | GOOGLE_GET => "google_get" | GET_VIA => "get_via"
  | BACK => "back" | FORWARD => "forward" | REFRESH => "refresh"
  | CLICK => "click" | TYPE => "type" | CLEAR => "clear"
  | SELECT_OPTION => "select_option" | SCROLL => "scroll"
  | SCROLL_INTO_VIEW => "scroll_into_view" | HOVER => "hover" | FOCUS => "focus"
  | DRAG_AND_DROP => "drag_and_drop"
  | GET_TEXT => "get_text" | GET_ATTRIBUTE => "get_attribute" | GET_HTML => "get_html"
  | GET_PAGE_HTML => "get_page_html" | GET_PAGE_TEXT => "get_page_text"
  | GET_URL => "get_url" | GET_TITLE => "get_title" | GET_COOKIES => "get_cookies"
  | IS_ELEMENT_PRESENT => "is_element_present"
  | SOUPIFY => "soupify" | SOUPIFY_SELECT => "soupify_select"
  | SOUPIFY_SELECT_ALL => "soupify_select_all"
  | RUN_JS => "run_js" | RUN_CDP => "run_cdp"
  | SET_COOKIES => "set_cookies" | DELETE_COOKIES => "delete_cookies"
  | LOAD_COOKIES_NETSCAPE => "load_cookies_netscape"
  | SCREENSHOT => "screenshot" | SCREENSHOT_ELEMENT => "screenshot_element"
  | NEW_TAB => "new_tab" | SWITCH_TAB => "switch_tab" | CLOSE_TAB => "close_tab"
  | GET_TABS => "get_tabs"
  | SELECT_IFRAME => "select_iframe" | GET_IFRAME_BY_LINK => "get_iframe_by_link"
  | EXIT_IFRAME => "exit_iframe"
  | SLEEP => "sleep" | RANDOM_SLEEP => "random_sleep"
  | WAIT_FOR_NAVIGATION => "wait_for_navigation" | WAIT_FOR_ELEMENT => "wait_for_element"
  | ENABLE_HUMAN_MODE => "enable_human_mode" | DISABLE_HUMAN_MODE => "disable_human_mode"
  | FETCH_GET => "fetch_get" | FETCH_POST => "fetch_post"
  end.

(** The store after [save_as]: the result under the given name, unless the
    name is missing or empty. *)
Definition saved {F} (save_as : option string) (result : pyval F) (d : Dict.t (pyval F))
  : Dict.t (pyval F) :=
  match save_as with
  | Some name => if String.eqb name "" then d else Dict.set name result d
  | None => d
  end.

(** More inputs of the examples. *)

(** [get_url] saved as [page]. *)
Definition save_step : ScriptStep.t Z :=
  ScriptStep.make "get_url" None None None None None (Some "page")
                  None None None None None None (Some "abort") (Some 3).

(** A loop over [range] with a one-action body. *)
Definition loop_over (range : list Z) : ScriptStep.t Z :=
  ScriptStep.make "get_url" None None None None None None
                  None None None
                  (Some range) None (Some [ScriptStep.default "enable_human_mode"])
                  (Some "abort") (Some 3).

(** [if exists(x): enable_human_mode], without an [else] body. *)
Definition conditional_on_x : ScriptStep.t Z :=
  ScriptStep.make "get_url" None None None None None None
                  (Some (condition_of "x" "exists" VNone))
                  (Some [ScriptStep.default "enable_human_mode"]) None
                  None None None (Some "abort") (Some 3).

(** The same conditional with the fields of a loop and another action kind
    filled in as well. *)
Definition conditional_with_loop_fields : ScriptStep.t Z :=
  ScriptStep.make "sleep" (Some "#a") None None None None (Some "r")
                  (Some (condition_of "x" "exists" VNone))
                  (Some [ScriptStep.default "enable_human_mode"]) None
                  (Some [1; 3]) (Some "j") (Some [ScriptStep.default "click"])
                  (Some "abort") (Some 3).

(** ** Batches of actions: [app/api/actions.py] *)

Module ActionResponse.
Record t (F : Type) := make {
  success : bool;
  action : string;
  result : pyval F;          (* [None] when the action failed *)
  error : option string
}.
Arguments make {F}.
Arguments success {F}.
Arguments action {F}.
Arguments result {F}.
Arguments error {F}.
End ActionResponse.

Module BatchActionResponse.
Record t (F : Type) := make {
  success : bool;
  results : list (ActionResponse.t F);
  completed : Z;
  failed : Z
}.
Arguments make {F}.
Arguments success {F}.
Arguments results {F}.
Arguments completed {F}.
Arguments failed {F}.
End BatchActionResponse.

Section BatchActions.
Context {F W : Type}.

(** The call [executor.execute_action(action_request)] of the endpoints.
    The class [ActionExecutor] under [app/core] defines [execute]; what the
    name [execute_action] resolves to is left open here: any computation
    that returns a value or raises. *)
Variable execute_action : ActionRequest.t F -> @M F W (pyval F).

Local Open Scope engine_scope.

(** One turn of the loop of [execute_batch_actions]: the [try] statement.
    The value returned tells whether the loop goes on ([False] after
    [break]). *)
Definition batch_turn (stop_on_error : bool) (action_request : ActionRequest.t F)
           (acc : list (ActionResponse.t F) * Z * Z)
  : @M F W (list (ActionResponse.t F) * Z * Z * bool) :=
  let '(results, completed, failed) := acc in
  let name := ActionType_value (ActionRequest.action action_request) in
  try_except
    (result <- execute_action action_request ;;
     ret ((results ++ [ActionResponse.make true name result None])%list,
          completed + 1, failed, true))
    (fun e =>
       ret ((results ++ [ActionResponse.make false name VNone (Some (exn_msg e))])%list,
            completed, failed + 1, negb stop_on_error)).

(** [for action_request in batch_request.actions: ...] *)
Fixpoint batch_loop (stop_on_error : bool) (actions : list (ActionRequest.t F))
         (acc : list (ActionResponse.t F) * Z * Z)
  : @M F W (list (ActionResponse.t F) * Z * Z) :=
  match actions with
  | [] => ret acc
  | action_request :: rest =>
      turn <- batch_turn stop_on_error action_request acc ;;
      let '(acc', continue) := turn in
      if continue then batch_loop stop_on_error rest acc' else ret acc'
  end.

(** [execute_batch_actions], from the construction of the executor to the
    response (without the timings). *)
Definition execute_batch_actions (actions : list (ActionRequest.t F))
           (stop_on_error : bool) : @M F W (BatchActionResponse.t F) :=
  acc <- batch_loop stop_on_error actions ([], 0, 0) ;;
  let '(results, completed, failed) := acc in
  ret (BatchActionResponse.make (failed =? 0) results completed failed).

(** How many responses report success, how many failure. *)
Definition count_success (results : list (ActionResponse.t F)) : Z :=
  Z.of_nat (List.length (filter ActionResponse.success results)).

Definition count_failure (results : list (ActionResponse.t F)) : Z :=
  Z.of_nat (List.length (filter (fun r => negb (ActionResponse.success r)) results)).

End BatchActions.

(** Responses that are successes up to at most one failure at the very
    end. *)
Definition stops_at_first_failure {F} (results : list (ActionResponse.t F)) : Prop :=
  exists oks tail,
    results = (oks ++ tail)%list /\
    Forall (fun r => ActionResponse.success r = true) oks /\
    (tail = [] \/ exists r, tail = [r] /\ ActionResponse.success r = false).

(** ** Sessions: [app/core/session_manager.py] *)

Inductive SessionStatus := ACTIVE | IDLE | CLOSED.

(** [del d[k]] for a key that is present. *)
Definition dict_remove {V} (k : string) (d : Dict.t V) : Dict.t V :=
  filter (fun kv => negb (String.eqb k (fst kv))) d.

(** An entry of [SessionManager.sessions].  [engine] is the [driver] field of
    the session's [BrowserEngine]: [None] once the engine is closed.  [C] is
    the type of session configurations, [W] that of driver states; times are
    in microseconds, the resolution of [datetime]. *)
Module Session.
Record t (F C W : Type) := make {
  engine : option W;
  config : C;
  name : option string;
  status : SessionStatus;
  created_at : Z;
  last_activity : Z;
  variables : Dict.t (pyval F)
}.
Arguments make {F C W}.
Arguments engine {F C W}.
Arguments config {F C W}.
Arguments name {F C W}.
Arguments status {F C W}.
Arguments created_at {F C W}.
Arguments last_activity {F C W}.
Arguments variables {F C W}.
End Session.

Module SessionInfo.
Record t (C : Type) := make {
  session_id : string;
  name : option string;
  status : SessionStatus;
  config : C;
  created_at : Z;
  last_activity : Z;
  current_url : option string;
  page_title : option string
}.
Arguments make {C}.
Arguments session_id {C}.
Arguments name {C}.
Arguments status {C}.
Arguments config {C}.
Arguments created_at {C}.
Arguments last_activity {C}.
Arguments current_url {C}.
Arguments page_title {C}.
End SessionInfo.

Module SessionManager.
Record t (F C W : Type) := make {
  sessions : Dict.t (Session.t F C W);
  max_sessions : Z;
  session_timeout : Z      (* seconds *)
}.
Arguments make {F C W}.
Arguments sessions {F C W}.
Arguments max_sessions {F C W}.
Arguments session_timeout {F C W}.
End SessionManager.

Section Sessions.
Context {F C W : Type}.

(** [BrowserEngine(config)]: the driver it starts, or the exception. *)
Variable new_engine : C -> W + exn.
(** [driver.current_url] and [driver.title], [None] when reading fails. *)
Variable driver_url : W -> option string.
Variable driver_title : W -> option string.
(** The text of the error raised at the limit, for a given limit. *)
Variable limit_message : Z -> string.

Local Abbreviation manager := (SessionManager.t F C W).
Local Abbreviation session := (Session.t F C W).

Definition with_sessions (m : manager) (d : Dict.t session) : manager :=
  SessionManager.make d (SessionManager.max_sessions m) (SessionManager.session_timeout m).

(** [BrowserEngine.get_current_url] and [get_page_title]. *)
Definition get_current_url (s : session) : option string :=
  match Session.engine s with Some w => driver_url w | None => None end.

Definition get_page_title (s : session) : option string :=
  match Session.engine s with Some w => driver_title w | None => None end.

(** [SessionManager._get_session_info] on the entry [s] of [session_id]. *)
Definition _get_session_info (session_id : string) (s : session) : SessionInfo.t C :=
  SessionInfo.make session_id (Session.name s) (Session.status s) (Session.config s)
                   (Session.created_at s) (Session.last_activity s)
                   (get_current_url s) (get_page_title s).

(** [SessionManager.create_session]; [session_id] is the fresh
    [str(uuid.uuid4())] and [now] the time read once the engine is up. *)
Definition create_session (config : C) (name : option string)
           (session_id : string) (now : Z) (m : manager)
  : Result (SessionInfo.t C) * manager :=
  if Z.of_nat (List.length (SessionManager.sessions m)) >=? SessionManager.max_sessions m
  then (Raise (mkExn RuntimeError (limit_message (SessionManager.max_sessions m))), m)
  else
    match new_engine config with
    | inr e => (Raise e, m)
    | inl w =>
        let s := Session.make (Some w) config name ACTIVE now now [] in
        (Ok (_get_session_info session_id s),
         with_sessions m (Dict.set session_id s (SessionManager.sessions m)))
    end.

(** [SessionManager.get_session] at time [now]. *)
Definition get_session (session_id : string) (now : Z) (m : manager)
  : option session * manager :=
  match Dict.get session_id (SessionManager.sessions m) with
  | Some s =>
      let s' := Session.make (Session.engine s) (Session.config s) (Session.name s)
                             ACTIVE (Session.created_at s) now (Session.variables s) in
      (Some s', with_sessions m (Dict.set session_id s' (SessionManager.sessions m)))
  | None => (None, m)
  end.

(** An entry after [engine.close()] and [session["status"] = CLOSED]. *)
Definition closed (s : session) : session :=
  Session.make None (Session.config s) (Session.name s) CLOSED
               (Session.created_at s) (Session.last_activity s) (Session.variables s).

(** [SessionManager.close_session] *)
Definition close_session (session_id : string) (m : manager) : bool * manager :=
  match Dict.get session_id (SessionManager.sessions m) with
  | Some s =>
      (true, with_sessions m (Dict.set session_id (closed s) (SessionManager.sessions m)))
  | None => (false, m)
  end.

(** [SessionManager.remove_session] *)
Definition remove_session (session_id : string) (m : manager) : bool * manager :=
  if Dict.mem session_id (SessionManager.sessions m) then
    let m1 := snd (close_session session_id m) in
    (true, with_sessions m1 (dict_remove session_id (SessionManager.sessions m1)))
  else (false, m).

(** [SessionManager.close_all_sessions] *)
Definition close_all_sessions (m : manager) : manager :=
  fold_left (fun acc session_id => snd (close_session session_id acc))
            (Dict.keys (SessionManager.sessions m)) m.

(** [now - session["last_activity"] > timedelta(seconds=self.session_timeout)] *)
Definition is_idle (timeout now : Z) (s : session) : bool :=
  timeout * 1000000 <? now - Session.last_activity s.

(** [SessionManager.cleanup_idle_sessions] at time [now]. *)
Definition cleanup_idle_sessions (now : Z) (m : manager) : manager :=
  fold_left
    (fun acc item =>
       if is_idle (SessionManager.session_timeout m) now (snd item)
       then snd (remove_session (fst item) acc)
       else acc)
    (SessionManager.sessions m) m.

(** [SessionManager.list_sessions] *)
Definition list_sessions (m : manager) : list (SessionInfo.t C) :=
  map (fun item => _get_session_info (fst item) (snd item)) (SessionManager.sessions m).

End Sessions.

(** Sessions for the examples: configurations and drivers are [unit], the
    browser always starts, and the limit is two sessions of one hour. *)
Definition toy_session (last_activity : Z) : Session.t Z unit unit :=
  Session.make (Some tt) tt None ACTIVE 0 last_activity [].

Definition toy_manager : SessionManager.t Z unit unit :=
  SessionManager.make [("a", toy_session 0); ("b", toy_session 5000000000)] 2 3600.

Definition toy_new_engine (config : unit) : unit + exn := inl tt.

Definition toy_limit_message (limit : Z) : string :=
  "session limit reached (" ++ PyStr.of_Z limit ++ ")".

Definition toy_create :=
  create_session (F := Z) toy_new_engine (fun _ => None) (fun _ => None) toy_limit_message.

(** Three steps, the second of which fails its check. *)
Definition stops_at_click : Script.t Z :=
  Script.make "s" None [] None
    [ScriptStep.default "enable_human_mode"; ScriptStep.default "click";
     ScriptStep.default "get_url"].

(** ** Tactics *)

(** Split on the tests of the chain, first to last. *)
Ltac operator_cases o :=
  unfold apply_operator; cbn [py_eq_str];
  repeat match goal with
    | |- context [String.eqb o ?lit] =>
        let E := fresh "E" in
        destruct (String.eqb o lit) eqn:E;
        [apply String.eqb_eq in E; subst o|]
    end.

(** * Properties *)

(** ** Strings *)

Example replace_ex1 : PyStr.replace "a$x-$x$xy" "$x" "QQ" = "aQQ-QQQQy".
Proof. reflexivity. Qed.
Example replace_ex2 : PyStr.replace "aaa" "aa" "b" = "ba".
Proof. reflexivity. Qed.
Example replace_ex3 : PyStr.replace "abc" "" "-" = "-a-b-c-".
Proof. reflexivity. Qed.
Example of_Z_ex : (PyStr.of_Z 0, PyStr.of_Z 10, PyStr.of_Z (-42)) = ("0", "10", "-42").
Proof. reflexivity. Qed.
Example contains_ex : (PyStr.contains "on" "None", PyStr.contains "" "", PyStr.contains "x" "") = (true, true, false).
Proof. reflexivity. Qed.

Section StringFacts.

Lemma prefix_needs_first_char c p s :
  PyStr.has_char c s = false -> String.prefix (String c p) s = false.
Proof.
  destruct s as [|d s']; simpl; [reflexivity|].
  intros H. apply orb_false_iff in H as [Hcd _].
  destruct (ascii_dec c d) as [->|Hne]; [|reflexivity].
  rewrite Ascii.eqb_refl in Hcd. discriminate.
Qed.

Lemma contains_needs_first_char c p s :
  PyStr.has_char c s = false -> PyStr.contains (String c p) s = false.
Proof.
  induction s as [|d s' IH]; intros H.
  - reflexivity.
  - cbn [PyStr.contains]. rewrite (prefix_needs_first_char c p _ H).
    simpl in H. apply orb_false_iff in H as [_ H]. simpl. auto.
Qed.

Lemma contains_false_inv sub c s :
  PyStr.contains sub (String c s) = false ->
  String.prefix sub (String c s) = false /\ PyStr.contains sub s = false.
Proof.
  cbn [PyStr.contains]. intros H. apply orb_false_iff in H. exact H.
Qed.

(** Without an occurrence of [old] there is nothing to replace. *)
Lemma replace_from_absent old new s :
  PyStr.contains old s = false -> PyStr.replace_from old new 0 s = s.
Proof.
  induction s as [|c s' IH]; intros H.
  - reflexivity.
  - apply contains_false_inv in H as [Hp Hc].
    cbn [PyStr.replace_from]. rewrite Hp, (IH Hc). reflexivity.
Qed.

Lemma replace_absent s c p new :
  PyStr.contains (String c p) s = false -> PyStr.replace s (String c p) new = s.
Proof. intros H. unfold PyStr.replace. now apply replace_from_absent. Qed.

End StringFacts.

(** ** Interpolation *)

Section InterpolationFacts.
Context {F : Type} {prims : PyPrims F}.

(** The test [placeholder in result] changes nothing: one turn of the loop
    is one [replace]. *)
Lemma interpolate_one_replace (result k : string) (v : pyval F) :
  interpolate_one result (k, v) = PyStr.replace result ("$" ++ k) (py_str v).
Proof.
  unfold interpolate_one.
  destruct (PyStr.contains ("$" ++ k) result) eqn:E; [reflexivity|].
  symmetry. apply (replace_absent result "$"%char k). exact E.
Qed.

Lemma interpolate_one_no_dollar (s : string) (item : string * pyval F) :
  PyStr.has_char "$" s = false -> interpolate_one s item = s.
Proof.
  intros H. destruct item as [k v]. unfold interpolate_one.
  change ("$" ++ k) with (String "$"%char k).
  now rewrite (contains_needs_first_char _ k s H).
Qed.

Lemma interpolate_string_no_dollar (vars : Dict.t (pyval F)) (s : string) :
  PyStr.has_char "$" s = false -> interpolate_string vars s = s.
Proof.
  intros H. unfold interpolate_string.
  induction vars as [|item vars IH]; simpl.
  - reflexivity.
  - now rewrite (interpolate_one_no_dollar s item H).
Qed.

(** C9.  A value that is not a string, or is a string without the character
    [$], comes out of [interpolate_value] as it went in; so interpolating it
    twice is the same as interpolating it once. *)
Theorem interpolate_value_fixes_dollar_free
        (vars : Dict.t (pyval F)) (value : pyval F)
        (Hfree : forall s, value = VStr s -> PyStr.has_char "$" s = false) :
  interpolate_value vars value = value /\
  interpolate_value vars (interpolate_value vars value) = interpolate_value vars value.
Proof.
  assert (Hfix : interpolate_value vars value = value).
  { destruct value; try reflexivity.
    simpl. f_equal. apply interpolate_string_no_dollar. now apply Hfree. }
  split; [exact Hfix|]. now rewrite Hfix.
Qed.

(** C6, as the code has it.  Interpolation is one [replace] per variable, in
    the order of the store, each applied to the output of the one before:
    what the first variable's value brought in is handed to all the later
    variables, and only the last variable's replacement is final. *)
Theorem interpolate_string_sequential
        (vars : Dict.t (pyval F)) (k : string) (v : pyval F) (s : string) :
  interpolate_string ((k, v) :: vars) s
    = interpolate_string vars (PyStr.replace s ("$" ++ k) (py_str v)) /\
  interpolate_string (vars ++ [(k, v)])%list s
    = PyStr.replace (interpolate_string vars s) ("$" ++ k) (py_str v).
Proof.
  unfold interpolate_string. split.
  - cbn [fold_left]. now rewrite interpolate_one_replace.
  - rewrite fold_left_app. cbn [fold_left]. now rewrite interpolate_one_replace.
Qed.

End InterpolationFacts.

(** Witness for C9: a string without [$] and a number. *)
Lemma interpolate_value_fixes_dollar_free_witness :
  interpolate_value (F := Z) [("x", VInt 1)] (VStr "hello") = VStr "hello" /\
  interpolate_value (F := Z) [("x", VInt 1)] (VInt 3) = VInt 3.
Proof.
  split.
  - apply (interpolate_value_fixes_dollar_free (F := Z) [("x", VInt 1)] (VStr "hello")).
    intros s E. injection E as <-. reflexivity.
  - apply (interpolate_value_fixes_dollar_free (F := Z) [("x", VInt 1)] (VInt 3)).
    intros s E. discriminate E.
Defined.

(** C6, as stated, fails.  With the store [{a: "$b", b: "X"}] the placeholder
    [$a] is replaced by ["$b"], and that text, brought in by the first
    substitution, is substituted again when the loop reaches [b]: the result
    is ["X"], not ["$b"]. *)
Lemma interpolate_value_resubstitutes :
  PyStr.replace "$a" "$a" (py_str (F := Z) (VStr "$b")) = "$b" /\
  interpolate_value (F := Z) [("a", VStr "$b"); ("b", VStr "X")] (VStr "$a") = VStr "X" /\
  interpolate_value (F := Z) [("a", VStr "$b"); ("b", VStr "X")] (VStr "$a") <> VStr "$b".
Proof. repeat split; try reflexivity. discriminate. Qed.

(** In the other order of the store the same text stays. *)
Example interpolate_value_order :
  interpolate_value (F := Z) [("b", VStr "X"); ("a", VStr "$b")] (VStr "$a") = VStr "$b".
Proof. reflexivity. Qed.

(** ** Dictionaries *)

Section DictFacts.
Context {V : Type}.
Implicit Types (d other : Dict.t V) (k : string) (v : V).

Lemma get_set_same k v d : Dict.get k (Dict.set k v d) = Some v.
Proof.
  induction d as [|[k' v'] d IH]; simpl.
  - now rewrite String.eqb_refl.
  - destruct (String.eqb k k') eqn:E; simpl; rewrite E; auto.
Qed.

Lemma get_set_other k k' v d :
  k <> k' -> Dict.get k' (Dict.set k v d) = Dict.get k' d.
Proof.
  intros Hne. induction d as [|[k0 v0] d IH]; simpl.
  - destruct (String.eqb k' k) eqn:E; [|reflexivity].
    apply String.eqb_eq in E. congruence.
  - destruct (String.eqb k k0) eqn:E; simpl.
    + apply String.eqb_eq in E. subst k0.
      destruct (String.eqb k' k) eqn:E'; [|reflexivity].
      apply String.eqb_eq in E'. congruence.
    + now rewrite IH.
Qed.

Lemma get_update_absent k d other :
  ~ In k (Dict.keys other) -> Dict.get k (Dict.update d other) = Dict.get k d.
Proof.
  unfold Dict.update. revert d.
  induction other as [|[k0 v0] other IH]; intros d Hnot; simpl.
  - reflexivity.
  - simpl in Hnot. rewrite IH by tauto.
    apply get_set_other. tauto.
Qed.

(** [d.update(other)] gives every key of [other] the value [other] has. *)
Lemma get_update_present k v d other :
  NoDup (Dict.keys other) -> In (k, v) other ->
  Dict.get k (Dict.update d other) = Some v.
Proof.
  unfold Dict.update. revert d.
  induction other as [|[k0 v0] other IH]; intros d Hnd Hin; simpl.
  - destruct Hin.
  - simpl in Hnd. inversion Hnd as [|? ? Hnotin Hnd']; subst.
    destruct Hin as [E|Hin].
    + injection E as -> ->.
      change (Dict.get k (Dict.update (Dict.set k v d) other) = Some v).
      rewrite get_update_absent by exact Hnotin. apply get_set_same.
    + now apply IH.
Qed.

End DictFacts.

(** ** The script runner *)

Section RunnerFacts.
Context {F W : Type} {prims : PyPrims F}.
Variable driver : ActionRequest.t F -> W -> (pyval F + exn) * W.

Local Open Scope engine_scope.

Lemma prepare_ok (script : Script.t F) (st : Engine F W) :
  prepare script st = (Ok tt, prepared script st).
Proof.
  unfold prepare, prepared, bind, logger, reset_steps_completed, update_variables, ret.
  destruct (Script.variables script); reflexivity.
Qed.

(** The merge of [execute_script] lets the script win: every variable the
    script declares has the script's value afterwards, whatever the engine
    held for it before. *)
Lemma prepare_script_wins (script : Script.t F) (st : Engine F W) k v :
  NoDup (Dict.keys (Script.variables script)) ->
  In (k, v) (Script.variables script) ->
  Dict.get k (variables (snd (prepare script st))) = Some v.
Proof.
  intros Hnd Hin. rewrite prepare_ok. simpl.
  now apply get_update_present.
Qed.

(** C4.  [execute_script] always returns a result record.  If the steps ran
    to the end, [success] is true and [error] is [None]; if a step let an
    exception [e] through, [success] is false and [error] is [str(e)].  In
    both cases [steps_completed] is the counter as the steps left it. *)
Theorem execute_script_never_raises (script : Script.t F) (st : Engine F W) :
  exists r st',
    execute_script driver script st = (Ok r, st') /\
    match run_steps (fun step => execute_step driver step 0) (Script.steps script)
                    (prepared script st) with
    | (Ok _, st1) =>
        success r = true /\ error r = None /\
        result_steps_completed r = steps_completed st1 /\
        result_variables r = variables st1
    | (Raise e, st1) =>
        success r = false /\ error r = Some (exn_msg e) /\
        result_steps_completed r = steps_completed st1 /\
        result_variables r = variables st1
    end.
Proof.
  unfold execute_script.
  unfold bind at 1. rewrite prepare_ok.
  unfold bind at 1. unfold try_except.
  unfold bind at 1.
  destruct (run_steps _ (Script.steps script) (prepared script st)) as [[u|e] st1].
  - eexists _, _. split; [reflexivity|]. simpl. auto.
  - eexists _, _. split; [reflexivity|]. simpl. auto.
Qed.

End RunnerFacts.

(** C1 fails on the code.  The caller sends [x = 2], the script declares the
    default [x = 1]: [run_script] first merges with the caller on top, and
    [execute_script] then writes the script's defaults over the result. *)
Theorem run_script_overwrites_caller_value :
  let script := Script.make (F := Z) "s" None [("x", VInt 1)] None [] in
  let caller := Some [("x", VInt 2)] in
  Dict.get "x" (merge_request_variables script caller) = Some (VInt 2) /\
  exists r st,
    run_script Toy.idle_driver script caller tt = (Ok r, st) /\
    success r = true /\
    Dict.get "x" (result_variables r) = Some (VInt 1).
Proof.
  cbv zeta. split; [reflexivity|].
  eexists _, _. split; [reflexivity|]. split; reflexivity.
Qed.

(** [steps_completed] is the count at the point of failure, not the length of
    the script: the first of these two steps fails. *)
Example steps_completed_at_failure :
  let script := Script.make (F := Z) "s" None [] None
                  [ScriptStep.default "click"; ScriptStep.default "enable_human_mode"] in
  fst (execute_script Toy.idle_driver script (ScriptEngine_init None tt))
  = Ok (mkRunResult false 0 [] (Some "Selector is required for click action")).
Proof. reflexivity. Qed.

(** ** Counting attempts in the log *)

Section LogFacts.
Context {F W : Type}.

Lemma count_errors_snoc (l : list (event F)) (ev : event F) :
  count_errors (l ++ [ev]) = (count_errors l + if is_step_error ev then 1 else 0)%nat.
Proof.
  unfold count_errors. rewrite filter_app, length_app. simpl.
  destruct (is_step_error ev); reflexivity.
Qed.

Lemma count_retries_snoc (l : list (event F)) (ev : event F) :
  count_retries (l ++ [ev]) = (count_retries l + if is_retrying ev then 1 else 0)%nat.
Proof.
  unfold count_retries. rewrite filter_app, length_app. simpl.
  destruct (is_retrying ev); reflexivity.
Qed.

Lemma quiet_ret {A} (a : A) : quiet (@ret F W A a).
Proof. intros st. split; reflexivity. Qed.

Lemma quiet_raise {A} (e : exn) : quiet (@raise F W A e).
Proof. intros st. split; reflexivity. Qed.

Lemma quiet_bind {A B} (m : @M F W A) (k : A -> @M F W B) :
  quiet m -> (forall a, quiet (k a)) -> quiet (bind m k).
Proof.
  intros Hm Hk st. unfold bind.
  destruct (Hm st) as [He Hr].
  destruct (m st) as [[a|e] st1]; simpl in *.
  - destruct (Hk a st1) as [He' Hr']. split; congruence.
  - split; assumption.
Qed.

Lemma quiet_logger (ev : event F) :
  is_step_error ev = false -> is_retrying ev = false -> quiet (@logger F W ev).
Proof.
  intros H1 H2 st. simpl.
  rewrite count_errors_snoc, count_retries_snoc, H1, H2. lia.
Qed.

Lemma quiet_get_variables : quiet (@get_variables F W).
Proof. intros st. split; reflexivity. Qed.

Lemma quiet_get_executor_variables : quiet (@get_executor_variables F W).
Proof. intros st. split; reflexivity. Qed.

Lemma quiet_incr_steps_completed : quiet (@incr_steps_completed F W).
Proof. intros st. split; reflexivity. Qed.

Lemma quiet_set_variable k v : quiet (@set_variable F W k v).
Proof. intros st. split; reflexivity. Qed.

Lemma quiet_call_driver f : quiet (@call_driver F W f).
Proof.
  intros st. unfold call_driver.
  destruct (f (driver_state st)) as [[v|e] w]; split; reflexivity.
Qed.

End LogFacts.

Create HintDb quiet.

#[local] Hint Resolve quiet_ret quiet_raise quiet_get_variables
  quiet_get_executor_variables quiet_incr_steps_completed quiet_set_variable
  quiet_call_driver : quiet.

(** ** Error policy: retries *)

Section RetryFacts.
Context {F W : Type} {prims : PyPrims F}.
Variable driver : ActionRequest.t F -> W -> (pyval F + exn) * W.

Local Open Scope engine_scope.

(** [execute_step], unfolded once. *)
Lemma execute_step_unfold (step : ScriptStep.t F) (retry_count : Z) :
  execute_step driver step retry_count =
  let exec := fun s => execute_step driver s 0 in
  attempts step
    (try_block driver
       (run_body exec (ScriptStep.then_steps step))
       (run_body exec (ScriptStep.else_steps step))
       (run_body exec (ScriptStep.loop_steps step)) step)
    (retries_left step retry_count) retry_count.
Proof. destruct step; reflexivity. Qed.

(** The fuel [execute_step] gives [attempts] is enough: with that much or
    more, the branch that runs out is never taken, and the result does not
    depend on the amount. *)
Lemma attempts_enough_fuel (step : ScriptStep.t F) (body : @M F W (pyval F)) :
  forall fuel1 fuel2 retry_count st,
    (retries_left step retry_count <= fuel1)%nat ->
    (retries_left step retry_count <= fuel2)%nat ->
    attempts step body fuel1 retry_count st = attempts step body fuel2 retry_count st.
Proof.
  induction fuel1 as [|fuel1 IH]; intros [|fuel2] retry_count st H1 H2.
  all: cbn [attempts]; unfold try_except.
  all: destruct (body st) as [[v|e] st1]; [reflexivity|].
  all: unfold on_exception, retries_left in *.
  all: unfold bind at 1; cbn [logger].
  all: destruct (String.eqb _ "skip"); [reflexivity|].
  all: destruct (retry_count <? int_or (ScriptStep.max_retry step) 3) eqn:Hlt;
    [apply Z.ltb_lt in Hlt | rewrite andb_false_r; reflexivity].
  all: destruct (String.eqb _ "retry"); [|reflexivity].
  all: try (exfalso; lia).
  cbn [andb]. unfold bind at 1. cbn [logger]. unfold bind at 1. cbn [logger].
  unfold bind at 1. cbn [logger]. symmetry. unfold bind at 1. cbn [logger].
  unfold bind at 1. cbn [logger]. symmetry.
  apply IH; lia.
Qed.

(** A [try] block that always fails, under the policy [retry]: it is run
    once and then once more for every value of the counter below
    [max_retry]; the last failure is raised.  Each run leaves one "Error
    executing step" record and each restart one "Retrying step" record. *)
Lemma attempts_retry_exhausted (step : ScriptStep.t F) (body : @M F W (pyval F)) :
  str_or (ScriptStep.on_error step) "abort" = "retry" ->
  quiet body ->
  (forall st, exists e, fst (body st) = Raise e) ->
  forall fuel retry_count st,
    (retries_left step retry_count <= fuel)%nat ->
    exists e st',
      attempts step body fuel retry_count st = (Raise e, st') /\
      count_errors (log st')
        = (count_errors (log st) + retries_left step retry_count + 1)%nat /\
      count_retries (log st')
        = (count_retries (log st) + retries_left step retry_count)%nat.
Proof.
  intros Hpolicy Hquiet Hfails.
  induction fuel as [|fuel IH]; intros retry_count st Hfuel.
  all: cbn [attempts]; unfold try_except.
  all: destruct (Hfails st) as [e He]; destruct (Hquiet st) as [Hce Hcr].
  all: destruct (body st) as [r st1]; simpl in He, Hce, Hcr; subst r.
  all: unfold on_exception; rewrite Hpolicy; cbn [String.eqb Ascii.eqb Bool.eqb andb].
  all: unfold retries_left in *.
  all: destruct (retry_count <? int_or (ScriptStep.max_retry step) 3) eqn:Hlt.
  all: try (apply Z.ltb_lt in Hlt); try (apply Z.ltb_ge in Hlt).
  - exfalso. lia.
  - eexists _, _. split; [reflexivity|]. simpl.
    rewrite !count_errors_snoc, !count_retries_snoc. simpl.
    rewrite Hce, Hcr.
    replace (Z.to_nat (int_or (ScriptStep.max_retry step) 3 - retry_count)) with 0%nat by lia.
    lia.
  - unfold bind at 1. unfold logger at 1. unfold bind at 1. unfold logger at 1.
    unfold bind at 1. unfold logger at 1.
    match goal with
    | |- context [attempts step body fuel (retry_count + 1) ?s] =>
        destruct (IH (retry_count + 1) s) as (e' & st' & Hrun & He' & Hr')
    end.
    { lia. }
    exists e', st'. split; [exact Hrun|].
    rewrite He', Hr'. simpl.
    rewrite !count_errors_snoc, !count_retries_snoc. simpl.
    rewrite Hce, Hcr. lia.
  - eexists _, _. split; [reflexivity|]. simpl.
    rewrite !count_errors_snoc, !count_retries_snoc. simpl.
    rewrite Hce, Hcr.
    replace (Z.to_nat (int_or (ScriptStep.max_retry step) 3 - retry_count)) with 0%nat by lia.
    lia.
Qed.

Lemma quiet_step_to_action (step : ScriptStep.t F) :
  quiet (_step_to_action (W := W) step).
Proof.
  unfold _step_to_action.
  destruct (ActionType_of_string (ScriptStep.action step)); auto with quiet.
  apply quiet_bind; auto with quiet.
Qed.

Lemma quiet_ActionExecutor_execute (action : ActionRequest.t F) :
  quiet (ActionExecutor_execute driver action).
Proof.
  unfold ActionExecutor_execute.
  apply quiet_bind; [auto with quiet|]. intros vars.
  apply quiet_bind; [now apply quiet_logger|]. intros _.
  destruct (validate _); [auto with quiet|].
  destruct (ActionRequest.action _); auto with quiet.
  all: apply quiet_bind; [now apply quiet_logger | auto with quiet].
Qed.

Lemma quiet_action_branch (step : ScriptStep.t F) :
  quiet (action_branch driver step).
Proof.
  unfold action_branch.
  apply quiet_bind; [apply quiet_step_to_action|]. intros action_request.
  apply quiet_bind; [apply quiet_ActionExecutor_execute|]. intros result.
  apply quiet_bind.
  - destruct (truthy_str _); [|auto with quiet].
    destruct (ScriptStep.save_as step); [|auto with quiet].
    apply quiet_bind; [auto with quiet|]. intros _. now apply quiet_logger.
  - intros _. apply quiet_bind; auto with quiet.
Qed.

(** The three cases of the [try] block. *)
Lemma execute_step_shape_priority_aux (step : ScriptStep.t F) (retry_count : Z) :
  let exec := fun s => execute_step driver s 0 in
  let run_then := run_body exec (ScriptStep.then_steps step) in
  let run_else := run_body exec (ScriptStep.else_steps step) in
  let run_loop := run_body exec (ScriptStep.loop_steps step) in
  let is_conditional :=
    truthy_list (ScriptStep.condition step) && truthy_list (ScriptStep.then_steps step) in
  let is_loop :=
    truthy_list (ScriptStep.loop_range step) && truthy_list (ScriptStep.loop_steps step) in
  let runs body :=
    execute_step driver step retry_count
    = attempts step body (retries_left step retry_count) retry_count in
  (is_conditional = true -> runs (conditional_branch run_then run_else step)) /\
  (is_conditional = false -> is_loop = true -> runs (loop_branch run_loop step)) /\
  (is_conditional = false -> is_loop = false -> runs (action_branch driver step)).
Proof.
  cbv zeta. rewrite execute_step_unfold. cbv zeta. unfold try_block.
  repeat split.
  - intros ->. reflexivity.
  - intros -> ->. reflexivity.
  - intros -> ->. reflexivity.
Qed.

Lemma try_block_action (step : ScriptStep.t F) run_then run_else run_loop :
  dispatched_as_action step ->
  try_block driver run_then run_else run_loop step = action_branch driver step.
Proof. intros [H1 H2]. unfold try_block. now rewrite H1, H2. Qed.

(** The retry policy on an action that always fails: with
    [m = step.max_retry or 3], the action is attempted [max(m, 0) + 1]
    times, [max(m, 0)] of them restarts, and the error is raised. *)
Theorem execute_step_retry_attempts (step : ScriptStep.t F) :
  dispatched_as_action step ->
  str_or (ScriptStep.on_error step) "abort" = "retry" ->
  (forall st, exists e, fst (action_branch driver step st) = Raise e) ->
  forall st,
    exists e st',
      execute_step driver step 0 st = (Raise e, st') /\
      count_errors (log st')
        = (count_errors (log st) + Z.to_nat (int_or (ScriptStep.max_retry step) 3) + 1)%nat /\
      count_retries (log st')
        = (count_retries (log st) + Z.to_nat (int_or (ScriptStep.max_retry step) 3))%nat.
Proof.
  intros Hshape Hpolicy Hfails st.
  rewrite execute_step_unfold. cbv zeta.
  rewrite (try_block_action step _ _ _ Hshape).
  destruct (attempts_retry_exhausted step (action_branch driver step) Hpolicy
              (quiet_action_branch step) Hfails (retries_left step 0) 0 st (le_n _))
    as (e & st' & Hrun & He & Hr).
  exists e, st'. split; [exact Hrun|].
  unfold retries_left in He, Hr. rewrite Z.sub_0_r in He, Hr. auto.
Qed.

End RetryFacts.

(** [max_retry = 2]: three attempts, two of them restarts, then the error. *)
Example retry_twice_three_attempts :
  exists e st',
    execute_step Toy.failing_driver (action_step_with_policy "get_url" "retry" (Some 2)) 0
                 (ScriptEngine_init None tt) = (Raise e, st') /\
    count_errors (log st') = 3%nat /\ count_retries (log st') = 2%nat.
Proof.
  apply (execute_step_retry_attempts Toy.failing_driver
           (action_step_with_policy "get_url" "retry" (Some 2))).
  - split; reflexivity.
  - reflexivity.
  - intros st. eexists. reflexivity.
Qed.

(** C2 fails on the code at [max_retry = 0].  [step.max_retry or 3] reads the
    0 as "not given" and puts 3 in its place: the step that asked for no
    retry is started again three times, four attempts in all. *)
Theorem retry_with_max_retry_zero :
  exists e st',
    execute_step Toy.failing_driver (action_step_with_policy "get_url" "retry" (Some 0)) 0
                 (ScriptEngine_init None tt) = (Raise e, st') /\
    count_errors (log st') = 4%nat /\ count_retries (log st') = 3%nat.
Proof. eexists _, _. split; [cbv; reflexivity|]. split; reflexivity. Qed.

(** ** Conditions *)

Section ConditionFacts.
Context {F W : Type} {prims : PyPrims F}.

Local Open Scope engine_scope.

(** With a non-empty string for the variable and a true value for the
    operator, [evaluate_condition] is the chain on the operator. *)
Lemma evaluate_condition_dispatch (condition : Dict.t (pyval F)) (st : Engine F W) n :
  condition_get "variable" condition = VStr n -> n <> "" ->
  py_truthy (condition_get "operator" condition) = true ->
  evaluate_condition condition st
  = apply_operator (condition_get "operator" condition) (lookup n st)
      (interpolate_value (variables st) (condition_get "value" condition)) st.
Proof.
  intros Hname Hn Hop. unfold evaluate_condition.
  rewrite Hname, Hop. cbn [py_truthy].
  destruct (String.eqb n "") eqn:E; [apply String.eqb_eq in E; contradiction|].
  cbn [negb orb]. unfold variables_get, get_variables, bind, lookup. cbn [variables].
  destruct (Dict.get n (variables st)); reflexivity.
Qed.

Lemma evaluate_condition_invalid (condition : Dict.t (pyval F)) (st : Engine F W) :
  py_truthy (condition_get "variable" condition) = false \/
  py_truthy (condition_get "operator" condition) = false ->
  fst (evaluate_condition condition st) = Ok (VBool false).
Proof.
  intros H. unfold evaluate_condition.
  destruct H as [-> | ->]; rewrite ?orb_true_r; reflexivity.
Qed.

(** [float] raises nothing but these three. *)
Lemma py_float_raises (v : pyval F) e :
  py_float v = inr e ->
  exn_cls e = ValueError \/ exn_cls e = TypeError \/ exn_cls e = OverflowError.
Proof.
  destruct v as [| b | z | f | s | l | d]; simpl.
  - intros [= <-]. auto.
  - destruct (float_of_int _); intros [= <-]. auto.
  - destruct (float_of_int _); intros [= <-]. auto.
  - discriminate.
  - destruct (float_of_str _); intros [= <-]. auto.
  - intros [= <-]. auto.
  - intros [= <-]. auto.
Qed.

Section CompareFloats.
Variables (cmp : F -> F -> bool) (a b : pyval F) (st : Engine F W).

Lemma compare_floats_state : snd (compare_floats cmp a b st) = st.
Proof.
  unfold compare_floats.
  destruct (py_float a) as [x|e]; [destruct (py_float b) as [y|e]|];
    try reflexivity; destruct (exn_cls e); reflexivity.
Qed.

Lemma compare_floats_left_fails e :
  py_float a = inr e -> exn_cls e = ValueError \/ exn_cls e = TypeError ->
  fst (compare_floats cmp a b st) = Ok (VBool false).
Proof.
  intros Ha Hcls. unfold compare_floats. rewrite Ha.
  destruct Hcls as [-> | ->]; reflexivity.
Qed.

Lemma compare_floats_right_fails x e :
  py_float a = inl x -> py_float b = inr e ->
  exn_cls e = ValueError \/ exn_cls e = TypeError ->
  fst (compare_floats cmp a b st) = Ok (VBool false).
Proof.
  intros Ha Hb Hcls. unfold compare_floats. rewrite Ha, Hb.
  destruct Hcls as [-> | ->]; reflexivity.
Qed.

Lemma compare_floats_raises e :
  fst (compare_floats cmp a b st) = Raise e -> exn_cls e = OverflowError.
Proof.
  unfold compare_floats.
  destruct (py_float a) as [x|ea] eqn:Ha; [destruct (py_float b) as [y|eb] eqn:Hb|].
  - discriminate.
  - destruct (py_float_raises _ _ Hb) as [E|[E|E]]; rewrite E; simpl;
      try discriminate. intros [= <-]. exact E.
  - destruct (py_float_raises _ _ Ha) as [E|[E|E]]; rewrite E; simpl;
      try discriminate. intros [= <-]. exact E.
Qed.

Lemma compare_floats_bool v :
  fst (compare_floats cmp a b st) = Ok v -> is_bool v = true.
Proof.
  unfold compare_floats.
  destruct (py_float a) as [x|e]; [destruct (py_float b) as [y|e]|].
  - intros [= <-]. reflexivity.
  - destruct (exn_cls e); simpl; try discriminate; intros [= <-]; reflexivity.
  - destruct (exn_cls e); simpl; try discriminate; intros [= <-]; reflexivity.
Qed.
End CompareFloats.

Lemma apply_operator_non_string (operator a b : pyval F) (st : Engine F W) :
  (forall o, operator <> VStr o) ->
  fst (apply_operator operator a b st) = Ok (VBool false).
Proof.
  intros H. destruct operator; try reflexivity.
  exfalso. now apply (H s).
Qed.

Lemma apply_operator_unknown (operator a b : pyval F) (st : Engine F W) :
  (forall o, In o known_operators -> operator <> VStr o) ->
  fst (apply_operator operator a b st) = Ok (VBool false).
Proof.
  intros H. destruct operator as [| | | | o | |]; try reflexivity.
  operator_cases o; try reflexivity.
  all: exfalso; eapply H; [|reflexivity]; simpl; tauto.
Qed.

Lemma apply_operator_numeric o (a b : pyval F) (st : Engine F W) :
  In o numeric_operators ->
  exists cmp, apply_operator (VStr o) a b st = compare_floats cmp a b st.
Proof.
  intros H. simpl in H.
  destruct H as [<-|[<-|[<-|[<-|[]]]]]; eexists; reflexivity.
Qed.

Lemma apply_operator_raises (operator a b : pyval F) (st : Engine F W) e :
  fst (apply_operator operator a b st) = Raise e -> exn_cls e = OverflowError.
Proof.
  destruct operator as [| | | | o | |]; try discriminate.
  operator_cases o; try discriminate.
  1-4: apply compare_floats_raises.
  destruct (py_truthy a); discriminate.
Qed.

Lemma apply_operator_bool (operator a b : pyval F) (st : Engine F W) v :
  fst (apply_operator operator a b st) = Ok v ->
  operator <> VStr "not_empty" -> is_bool v = true.
Proof.
  destruct operator as [| | | | o | |]; try (intros [= <-]; reflexivity).
  operator_cases o; try (intros [= <-]; reflexivity).
  1-4: intros H _; revert H; apply compare_floats_bool.
  intros _ H. now contradiction H.
Qed.

(** C5, as the code has it.  For a condition whose variable name is a
    string:
    - an empty name, a missing or empty operator, and an operator outside
      the twelve give [False];
    - under a numeric operator, a [ValueError] or [TypeError] from [float]
      on the variable's value, or on the literal once the value converted,
      gives [False]; when both convert the result is a [bool];
    - a variable missing from the store gives [False] under [exists] and
      the numeric operators and a false value under [not_empty]; for a
      non-empty name it gives [True] under [not_exists] and [is_empty], and
      is compared as the text ["None"] under [equals];
    - under [equals], [not_equals], [contains], [not_contains], [exists],
      [not_exists] and [is_empty] the evaluation returns a [bool] and does
      not raise. *)
Theorem evaluate_condition_cases
        (condition : Dict.t (pyval F)) (st : Engine F W) (n : string)
        (Hname : condition_get "variable" condition = VStr n) :
  let operator := condition_get "operator" condition in
  let actual := lookup n st in
  let expected := interpolate_value (variables st) (condition_get "value" condition) in
  let result := fst (evaluate_condition condition st) in
  (n = "" \/ py_truthy operator = false -> result = Ok (VBool false)) /\
  ((forall o, In o known_operators -> operator <> VStr o) ->
   result = Ok (VBool false)) /\
  (forall o e, In o numeric_operators -> operator = VStr o ->
     exn_cls e = ValueError \/ exn_cls e = TypeError ->
     py_float actual = inr e \/
     ((exists x, py_float actual = inl x) /\ py_float expected = inr e) ->
     result = Ok (VBool false)) /\
  (forall o x y, In o numeric_operators -> operator = VStr o ->
     py_float actual = inl x -> py_float expected = inl y ->
     exists b, result = Ok (VBool b)) /\
  (Dict.get n (variables st) = None ->
   forall o, operator = VStr o ->
     (In o ("exists" :: numeric_operators) -> result = Ok (VBool false)) /\
     (n <> "" -> In o ["not_exists"; "is_empty"] -> result = Ok (VBool true)) /\
     (o = "not_empty" -> exists r, result = Ok r /\ py_truthy r = false) /\
     (n <> "" -> o = "equals" ->
      result = Ok (VBool (String.eqb "None" (py_str expected))))) /\
  (forall o,
     In o ["equals"; "not_equals"; "contains"; "not_contains";
           "exists"; "not_exists"; "is_empty"] ->
     operator = VStr o -> exists b, result = Ok (VBool b)).
Proof.
  intros operator actual expected result.
  assert (Hinvalid : n = "" \/ py_truthy operator = false -> result = Ok (VBool false)).
  { intros [Hn|Hop]; apply evaluate_condition_invalid.
    - left. rewrite Hname, Hn. reflexivity.
    - right. exact Hop. }
  destruct (string_dec n "") as [Hn|Hn];
    [|destruct (py_truthy operator) eqn:Hop].
  1, 3: assert (Hr : result = Ok (VBool false)) by (apply Hinvalid; auto).
  1, 2: rewrite Hr; clear Hinvalid Hr.
  1, 2: split; [reflexivity|]; split; [reflexivity|]; split; [reflexivity|].
  1, 2: split; [intros; exists false; reflexivity|].
  1, 2: split; [|intros; exists false; reflexivity].
  1, 2: intros _ o Ho; split; [reflexivity|]; split; [|split].
  - intros Hne. contradiction.
  - intros _. exists (VBool false). split; reflexivity.
  - intros Hne. contradiction.
  - intros _ [<-|[<-|[]]]; rewrite Ho in Hop; discriminate Hop.
  - intros _. exists (VBool false). split; reflexivity.
  - intros _ ->. rewrite Ho in Hop. discriminate Hop.
  - split; [exact Hinvalid|]. clear Hinvalid.
    assert (Hr : result = fst (apply_operator operator actual expected st)).
    { unfold result. now rewrite (evaluate_condition_dispatch condition st n Hname Hn Hop). }
    rewrite Hr. clear Hr result.
    split; [apply apply_operator_unknown|].
    split.
    { intros o e Ho -> Hcls Hfail.
      destruct (apply_operator_numeric o actual expected st Ho) as [cmp ->].
      destruct Hfail as [Ha | [[x Ha] Hb]].
      - eapply compare_floats_left_fails; eauto.
      - eapply compare_floats_right_fails; eauto. }
    split.
    { intros o x y Ho -> Hx Hy.
      destruct (apply_operator_numeric o actual expected st Ho) as [cmp ->].
      unfold compare_floats. rewrite Hx, Hy. eexists. reflexivity. }
    split.
    { intros Hmissing o ->.
      assert (Hactual : actual = VNone).
      { unfold actual, lookup. now rewrite Hmissing. }
      rewrite Hactual.
      split; [|split; [|split]].
      - intros [<-|Ho]; [reflexivity|].
        destruct (apply_operator_numeric o VNone expected st Ho) as [cmp ->].
        eapply compare_floats_left_fails; [reflexivity|]. right. reflexivity.
      - intros _ [<-|[<-|[]]]; reflexivity.
      - intros ->. exists VNone. split; reflexivity.
      - intros _ ->. reflexivity. }
    intros o Ho ->. simpl in Ho.
    destruct Ho as [<-|[<-|[<-|[<-|[<-|[<-|[<-|[]]]]]]]]; eexists; reflexivity.
Qed.

(** C7, as the code has it.  [is_empty] is [True] exactly when the variable
    is missing, or its value is false in a boolean position ([None],
    [False], [0], [""], [[]], [{}]), or its string form is empty.
    [not_empty] evaluates to a value of the opposite truth. *)
Theorem is_empty_tests_truthiness
        (condition : Dict.t (pyval F)) (st : Engine F W) (n o : string)
        (Hname : condition_get "variable" condition = VStr n)
        (Hn : n <> "")
        (Hop : condition_get "operator" condition = VStr o) :
  let empty :=
    match Dict.get n (variables st) with
    | None => true
    | Some v => negb (py_truthy v) || (String.length (py_str v) =? 0)%nat
    end in
  (o = "is_empty" -> fst (evaluate_condition condition st) = Ok (VBool empty)) /\
  (o = "not_empty" ->
   exists r, fst (evaluate_condition condition st) = Ok r /\
             py_truthy r = negb empty).
Proof.
  intros empty.
  assert (Hempty : empty = negb (py_truthy (lookup n st))
                           || (String.length (py_str (lookup n st)) =? 0)%nat).
  { unfold empty, lookup. destruct (Dict.get n (variables st)); reflexivity. }
  split; intros ->.
  - rewrite (evaluate_condition_dispatch condition st n Hname Hn)
      by (rewrite Hop; reflexivity).
    rewrite Hop, Hempty. reflexivity.
  - rewrite (evaluate_condition_dispatch condition st n Hname Hn)
      by (rewrite Hop; reflexivity).
    rewrite Hop, Hempty. unfold apply_operator. cbn [py_eq_str String.eqb Ascii.eqb Bool.eqb].
    destruct (py_truthy (lookup n st)) eqn:Ht.
    + eexists. split; [reflexivity|].
      cbn [py_truthy negb orb].
      destruct (String.length (py_str (lookup n st))); reflexivity.
    + eexists. split; [reflexivity|].
      rewrite Ht. reflexivity.
Qed.

End ConditionFacts.

(** Witness for C5: the variable [count] is missing and the operator is
    [greater_than]. *)
Lemma evaluate_condition_cases_witness :
  fst (evaluate_condition (F := Z) (W := unit)
         [("variable", VStr "count"); ("operator", VStr "greater_than"); ("value", VStr "5")]
         (ScriptEngine_init None tt)) = Ok (VBool false).
Proof.
  destruct (evaluate_condition_cases (F := Z) (W := unit)
              [("variable", VStr "count"); ("operator", VStr "greater_than"); ("value", VStr "5")]
              (ScriptEngine_init None tt) "count" eq_refl)
    as (_ & _ & _ & _ & Hmissing & _).
  destruct (Hmissing eq_refl "greater_than" eq_refl) as [Hfalse _].
  apply Hfalse. right. left. reflexivity.
Defined.

(** C5, as stated, fails: [x] is missing from the store and [not_exists]
    evaluates to [True]; under [not_empty] the value returned is [None], which
    is not a [bool]. *)
Lemma evaluate_condition_missing_variable_true :
  fst (evaluate_condition (F := Z) (W := unit)
         [("variable", VStr "x"); ("operator", VStr "not_exists")]
         (ScriptEngine_init None tt)) = Ok (VBool true) /\
  fst (evaluate_condition (F := Z) (W := unit)
         [("variable", VStr "x"); ("operator", VStr "not_empty")]
         (ScriptEngine_init None tt)) = Ok VNone.
Proof. split; reflexivity. Qed.

(** Witness for C7: the store holds [x = 0]. *)
Lemma is_empty_tests_truthiness_witness :
  fst (evaluate_condition (F := Z) (W := unit)
         [("variable", VStr "x"); ("operator", VStr "is_empty")]
         (ScriptEngine_init (Some [("x", VInt 0)]) tt)) = Ok (VBool true).
Proof.
  assert (Hn : "x" <> "") by discriminate.
  apply (proj1 (is_empty_tests_truthiness (F := Z) (W := unit)
                  [("variable", VStr "x"); ("operator", VStr "is_empty")]
                  (ScriptEngine_init (Some [("x", VInt 0)]) tt)
                  "x" "is_empty" eq_refl Hn eq_refl)).
  reflexivity.
Defined.

(** C7, as stated, fails: a variable holding [0] (string form ["0"], of
    length 1) is empty for [is_empty], and [not_empty] returns the [0]
    itself; the same for [False]. *)
Lemma is_empty_of_zero :
  py_str (F := Z) (VInt 0) = "0" /\
  fst (evaluate_condition (F := Z) (W := unit)
         [("variable", VStr "x"); ("operator", VStr "is_empty")]
         (ScriptEngine_init (Some [("x", VInt 0)]) tt)) = Ok (VBool true) /\
  fst (evaluate_condition (F := Z) (W := unit)
         [("variable", VStr "x"); ("operator", VStr "not_empty")]
         (ScriptEngine_init (Some [("x", VInt 0)]) tt)) = Ok (VInt 0) /\
  fst (evaluate_condition (F := Z) (W := unit)
         [("variable", VStr "x"); ("operator", VStr "is_empty")]
         (ScriptEngine_init (Some [("x", VBool false)]) tt)) = Ok (VBool true).
Proof. repeat split; reflexivity. Qed.

(** The scenario of the specification: [count > 5]. *)
Example greater_than_examples :
  fst (evaluate_condition (F := Z) (W := unit)
         [("variable", VStr "count"); ("operator", VStr "greater_than"); ("value", VStr "5")]
         (ScriptEngine_init (Some [("count", VInt 10)]) tt)) = Ok (VBool true) /\
  fst (evaluate_condition (F := Z) (W := unit)
         [("variable", VStr "count"); ("operator", VStr "greater_than"); ("value", VStr "5")]
         (ScriptEngine_init (Some [("count", VStr "abc")]) tt)) = Ok (VBool false).
Proof. split; reflexivity. Qed.

(** ** The shape of a step *)

Section ShapeFacts.
Context {F W : Type} {prims : PyPrims F}.
Variable driver : ActionRequest.t F -> W -> (pyval F + exn) * W.

Lemma truthy_list_spec {A} (o : option (list A)) :
  truthy_list o = true <-> exists x l, o = Some (x :: l).
Proof.
  split.
  - destruct o as [[|x l]|]; try discriminate. intros _. now exists x, l.
  - intros (x & l & ->). reflexivity.
Qed.

(** The [except] block reads the step through [on_error] and [max_retry]
    only. *)
Lemma attempts_policy_only (step step' : ScriptStep.t F) (body : @M F W (pyval F)) :
  ScriptStep.on_error step' = ScriptStep.on_error step ->
  ScriptStep.max_retry step' = ScriptStep.max_retry step ->
  forall fuel retry_count,
    attempts step' body fuel retry_count = attempts step body fuel retry_count.
Proof.
  intros Hon Hmax. induction fuel as [|fuel IH]; intros retry_count; cbn [attempts].
  - unfold on_exception. rewrite Hon, Hmax. reflexivity.
  - rewrite IH. unfold on_exception. rewrite Hon, Hmax. reflexivity.
Qed.

(** C10, as the code has it.  A step is run as a conditional when its
    [condition] is a non-empty dictionary and its [then_steps] a non-empty
    list; failing that, as a loop when [loop_range] and [loop_steps] are
    both non-empty lists; failing that, as an action.  [None] and the empty
    dictionary or list count alike as absent.  A conditional ignores every
    field but [condition], [then_steps], [else_steps] and the error policy
    ([on_error], [max_retry]): two steps that agree on these run alike,
    whatever their [loop_range], [loop_steps], [loop_variable], [action] and
    action fields.  A loop likewise ignores [action] and the action fields,
    and the [condition] or [then_steps] that did not make it a
    conditional. *)
Theorem execute_step_shape_priority (step : ScriptStep.t F) (retry_count : Z) :
  let exec := fun s => execute_step driver s 0 in
  let run_then := run_body exec (ScriptStep.then_steps step) in
  let run_else := run_body exec (ScriptStep.else_steps step) in
  let run_loop := run_body exec (ScriptStep.loop_steps step) in
  let conditional := fun s : ScriptStep.t F =>
    truthy_list (ScriptStep.condition s) && truthy_list (ScriptStep.then_steps s) in
  let is_conditional := conditional step in
  let is_loop :=
    truthy_list (ScriptStep.loop_range step) && truthy_list (ScriptStep.loop_steps step) in
  let runs body :=
    execute_step driver step retry_count
    = attempts step body (retries_left step retry_count) retry_count in
  (is_conditional = true -> runs (conditional_branch run_then run_else step)) /\
  (is_conditional = false -> is_loop = true -> runs (loop_branch run_loop step)) /\
  (is_conditional = false -> is_loop = false -> runs (action_branch driver step)) /\
  (is_conditional = true ->
   forall step' : ScriptStep.t F,
     ScriptStep.condition step' = ScriptStep.condition step ->
     ScriptStep.then_steps step' = ScriptStep.then_steps step ->
     ScriptStep.else_steps step' = ScriptStep.else_steps step ->
     ScriptStep.on_error step' = ScriptStep.on_error step ->
     ScriptStep.max_retry step' = ScriptStep.max_retry step ->
     execute_step driver step' retry_count = execute_step driver step retry_count) /\
  (is_conditional = false -> is_loop = true ->
   forall step' : ScriptStep.t F,
     conditional step' = false ->
     ScriptStep.loop_range step' = ScriptStep.loop_range step ->
     ScriptStep.loop_steps step' = ScriptStep.loop_steps step ->
     ScriptStep.loop_variable step' = ScriptStep.loop_variable step ->
     ScriptStep.on_error step' = ScriptStep.on_error step ->
     ScriptStep.max_retry step' = ScriptStep.max_retry step ->
     execute_step driver step' retry_count = execute_step driver step retry_count).
Proof.
  cbv zeta.
  destruct (execute_step_shape_priority_aux driver step retry_count)
    as (Hcond & Hloop & Haction).
  split; [exact Hcond|]. split; [exact Hloop|]. split; [exact Haction|].
  split.
  - intros Hc step' Hcondition Hthen Helse Hon Hmax.
    rewrite (Hcond Hc).
    destruct (execute_step_shape_priority_aux driver step' retry_count) as (Hcond' & _).
    rewrite Hcond' by (rewrite Hcondition, Hthen; exact Hc).
    unfold retries_left, conditional_branch.
    rewrite Hcondition, Hthen, Helse, Hmax.
    apply attempts_policy_only; assumption.
  - intros Hc Hl step' Hc' Hrange Hsteps Hvar Hon Hmax.
    rewrite (Hloop Hc Hl).
    destruct (execute_step_shape_priority_aux driver step' retry_count) as (_ & Hloop' & _).
    rewrite Hloop'; [|exact Hc'|rewrite Hrange, Hsteps; exact Hl].
    unfold retries_left, loop_branch.
    rewrite Hrange, Hsteps, Hvar, Hmax.
    apply attempts_policy_only; assumption.
Qed.

End ShapeFacts.

(** Witness for C10: the step with an empty condition has no loop fields
    either, so it is an action; and the conditional on [x] runs the same
    with the fields of a loop and another action kind filled in. *)
Lemma execute_step_shape_priority_witness :
  execute_step Toy.counting_driver empty_condition_step 0
  = attempts empty_condition_step
      (action_branch Toy.counting_driver empty_condition_step)
      (retries_left empty_condition_step 0) 0 /\
  execute_step Toy.idle_driver conditional_with_loop_fields 0
  = execute_step Toy.idle_driver conditional_on_x 0.
Proof.
  split.
  - destruct (execute_step_shape_priority Toy.counting_driver empty_condition_step 0)
      as (_ & _ & Haction & _).
    apply Haction; reflexivity.
  - destruct (execute_step_shape_priority Toy.idle_driver conditional_on_x 0)
      as (_ & _ & _ & Hsame & _).
    apply Hsame; reflexivity.
Defined.

(** C10, as stated, fails: the condition of this step is not [None] and its
    [then] body is not empty, yet the step is dispatched as an action (the
    driver is called and its result returned), where a conditional would have
    evaluated the condition and left the driver alone. *)
Lemma empty_condition_is_dispatched_as_action :
  ScriptStep.condition empty_condition_step <> None /\
  ScriptStep.then_steps empty_condition_step = Some [ScriptStep.default "click"] /\
  (let '(r, st) := execute_step Toy.counting_driver empty_condition_step 0
                     (ScriptEngine_init None 0) in
   r = Ok (VInt 1) /\ driver_state st = 1 /\
   log st = [LogExecutingAction GET_URL]) /\
  (let '(r, st) := conditional_branch (ret tt) (ret tt) empty_condition_step
                     (ScriptEngine_init None 0) in
   r = Ok VNone /\ driver_state st = 0).
Proof. repeat split; try reflexivity. discriminate. Qed.

(** ** Loops *)

Section RangeFacts.

Lemma py_range_nil a b : b <= a -> py_range a b = [].
Proof.
  intros H. unfold py_range.
  replace (Z.to_nat (b - a)) with 0%nat by lia. reflexivity.
Qed.



End RangeFacts.

Section LoopFacts.
Context {F W : Type} {prims : PyPrims F}.
Variable driver : ActionRequest.t F -> W -> (pyval F + exn) * W.

Local Open Scope engine_scope.





End LoopFacts.



(** The same run, evaluated: four steps counted, and [i] is left at 3 in both
    stores. *)
Example loop_1_3_run :
  let '(r, st) := execute_step Toy.idle_driver loop_1_3 0 (ScriptEngine_init None tt) in
  r = Ok VNone /\ steps_completed st = 4 /\ variables st = [("i", VInt 3)] /\
  executor_variables st = [("i", VInt 3)].
Proof. vm_compute. repeat split; reflexivity. Qed.

(** ** Dispatch of an action step *)

Section DispatchFacts.
Context {F W : Type} {prims : PyPrims F}.
Variable driver : ActionRequest.t F -> W -> (pyval F + exn) * W.

Local Open Scope engine_scope.

(** The request of a step and what the executor does with it.  For a step
    whose [action] names the kind [a]:
    - [_step_to_action] builds a request from [a] and the five fields
      [selector], [url], [text], [value], [script], each interpolated
      against the engine's store when it is a non-empty string and [None]
      otherwise; every other field of the request is [None];
    - the executor interpolates the string fields once more against its own
      store, and checks the result: a failed check raises [ValueError]
      without reaching the driver, a passed check hands the request as
      interpolated to the handler of [a];
    - for the kinds that need a field a step does not have, the check always
      fails. *)
Theorem step_to_action_fields
        (step : ScriptStep.t F) (st : Engine F W) (a : ActionType)
        (Hkind : ActionType_of_string (ScriptStep.action step) = Some a) :
  let field := fun o =>
    if truthy_str o then option_map (interpolate_string (variables st)) o else None in
  let request :=
    ActionRequest.make a
      (field (ScriptStep.selector step)) (field (ScriptStep.url step))
      (field (ScriptStep.text step)) (field (ScriptStep.value step))
      None (field (ScriptStep.script step))
      None None None None None None None None None in
  let sent := interpolate_params (executor_variables st) request in
  let st1 := snd (logger (LogExecutingAction a) st) in
  _step_to_action step st = (Ok request, st) /\
  (forall msg, validate sent = Some msg ->
     ActionExecutor_execute driver request st = (Raise (mkExn ValueError msg), st1)) /\
  (validate sent = None -> a <> ENABLE_HUMAN_MODE -> a <> DISABLE_HUMAN_MODE ->
     ActionExecutor_execute driver request st = call_driver (driver sent) st1) /\
  (In a kinds_out_of_reach -> exists msg, validate sent = Some msg).
Proof.
  intros field request sent st1.
  split; [|split; [|split]].
  - unfold _step_to_action. rewrite Hkind. reflexivity.
  - intros msg Hv. unfold ActionExecutor_execute, bind, get_executor_variables.
    cbn [logger]. fold sent. rewrite Hv. reflexivity.
  - intros Hv Hen Hdis. unfold ActionExecutor_execute, bind, get_executor_variables.
    cbn [logger]. fold sent. rewrite Hv.
    change (ActionRequest.action sent) with a.
    destruct a; try reflexivity; contradiction.
  - intros Hin. unfold validate.
    change (ActionRequest.action sent) with a.
    unfold kinds_out_of_reach in Hin. simpl in Hin.
    repeat (destruct Hin as [<- | Hin]); [..|destruct Hin].
    + unfold require_url. destruct (truthy_str (ActionRequest.url sent)); eexists; reflexivity.
    + destruct (truthy_str (ActionRequest.selector sent)); eexists; reflexivity.
    + unfold require_selector.
      destruct (truthy_str (ActionRequest.selector sent)); eexists; reflexivity.
    + eexists; reflexivity.
    + eexists; reflexivity.
    + eexists; reflexivity.
    + eexists; reflexivity.
    + eexists; reflexivity.
    + eexists; reflexivity.
    + eexists; reflexivity.
Qed.

(** C3 fails on the code.  The claim has dispatch pass the fields relevant
    to the kind, such as the timing values of [sleep], the tab index of
    [switch_tab] or the parameter map; a step has no such fields and
    [_step_to_action] passes five fields only.  So an action step of one of
    the ten kinds that need another field never reaches the driver: whatever
    the step and the stores hold, dispatch raises the [ValueError] of the
    handler's check, with nothing changed but the log, nothing counted and
    nothing saved; for [sleep] the error is that [seconds] is required.
    Under the [abort] policy [execute_step] raises the same error. *)
Theorem out_of_reach_kinds_always_fail
        (step : ScriptStep.t F) (a : ActionType) (st : Engine F W)
        (Hkind : ActionType_of_string (ScriptStep.action step) = Some a)
        (Hin : In a kinds_out_of_reach) :
  exists msg,
    action_branch driver step st
    = (Raise (mkExn ValueError msg),
       mkEngine (variables st) (executor_variables st) (steps_completed st)
                (driver_state st) (log st ++ [LogExecutingAction a])) /\
    (a = SLEEP -> msg = "Seconds is required for sleep action") /\
    (dispatched_as_action step ->
     str_or (ScriptStep.on_error step) "abort" = "abort" ->
     forall retry_count,
       execute_step driver step retry_count st
       = (Raise (mkExn ValueError msg),
          mkEngine (variables st) (executor_variables st) (steps_completed st)
                   (driver_state st)
                   (log st ++ [LogExecutingAction a;
                               LogStepError (mkExn ValueError msg);
                               LogAborting (mkExn ValueError msg)]))).
Proof.
  destruct (step_to_action_fields step st a Hkind) as (Hbuild & Hrefused & _ & Hreach).
  destruct (Hreach Hin) as (msg & Hmsg).
  exists msg.
  assert (Hrun : action_branch driver step st
                 = (Raise (mkExn ValueError msg),
                    mkEngine (variables st) (executor_variables st) (steps_completed st)
                             (driver_state st) (log st ++ [LogExecutingAction a]))).
  { unfold action_branch. unfold bind at 1. rewrite Hbuild.
    unfold bind at 1. rewrite (Hrefused msg Hmsg). reflexivity. }
  split; [exact Hrun|]. split.
  - intros ->. unfold validate in Hmsg. cbn in Hmsg. congruence.
  - intros Hshape Hpolicy retry_count.
    rewrite execute_step_unfold. cbv zeta.
    rewrite (try_block_action driver step _ _ _ Hshape).
    destruct (retries_left step retry_count); cbn [attempts]; unfold try_except.
    all: rewrite Hrun; unfold on_exception; rewrite Hpolicy; cbn.
    all: rewrite <- !app_assoc; reflexivity.
Qed.

End DispatchFacts.

(** Witness for C3: a [sleep] step, every other field at its default. *)
Lemma out_of_reach_kinds_always_fail_witness :
  exists msg,
    action_branch Toy.counting_driver (ScriptStep.default "sleep") (ScriptEngine_init None 0)
    = (Raise (mkExn ValueError msg),
       mkEngine [] [] 0 0 [LogExecutingAction SLEEP]) /\
    msg = "Seconds is required for sleep action".
Proof.
  destruct (out_of_reach_kinds_always_fail Toy.counting_driver
              (ScriptStep.default "sleep") SLEEP (ScriptEngine_init None 0) eq_refl)
    as (msg & Hrun & Hmsg & _).
  - cbv. tauto.
  - exists msg. split; [exact Hrun|]. apply Hmsg. reflexivity.
Defined.

(** A [navigate] step with a placeholder in its [url]. *)
Lemma step_to_action_fields_witness :
  _step_to_action (W := unit) navigate_step (ScriptEngine_init (Some [("host", VStr "example.org")]) tt)
  = (Ok (ActionRequest.make NAVIGATE None (Some "https://example.org/") None None None None
           None None None None None None None None None),
     ScriptEngine_init (Some [("host", VStr "example.org")]) tt).
Proof.
  apply (step_to_action_fields (F := Z) (W := unit) Toy.idle_driver navigate_step
           (ScriptEngine_init (Some [("host", VStr "example.org")]) tt) NAVIGATE eq_refl).
Defined.

(** A [sleep] step has no timing value to pass.  The request built for it
    has [seconds = None], and the handler refuses it before the driver is
    reached. *)
Lemma sleep_step_has_no_seconds :
  (exists req st,
     _step_to_action (W := Z) (ScriptStep.default (F := Z) "sleep") (ScriptEngine_init None 0)
     = (Ok req, st) /\
     ActionRequest.seconds req = None /\ ActionRequest.params req = None /\
     ActionRequest.tab_index req = None) /\
  (let '(r, st) := execute_step Toy.counting_driver (ScriptStep.default "sleep") 0
                     (ScriptEngine_init None 0) in
   r = Raise (mkExn ValueError "Seconds is required for sleep action") /\
   driver_state st = 0 /\ steps_completed st = 0).
Proof.
  split.
  - eexists _, _. split; [cbv; reflexivity|]. repeat split; reflexivity.
  - vm_compute. repeat split; reflexivity.
Qed.

(** ** Further scenarios *)

(** A field of a step goes through interpolation twice, in the engine and in
    the executor: with the store [{b: "X", a: "$b"}] the engine turns ["$a"]
    into ["$b"] and the executor turns that into ["X"]. *)
Example field_interpolated_twice :
  let store := [("b", VStr "X"); ("a", VStr "$b")] in
  let step := ScriptStep.make (F := Z) "navigate" None (Some "$a") None None None None
                None None None None None None (Some "abort") (Some 3) in
  exists req st,
    _step_to_action (W := unit) step (ScriptEngine_init (Some store) tt) = (Ok req, st) /\
    ActionRequest.url req = Some "$b" /\
    ActionRequest.url (interpolate_params (executor_variables st) req) = Some "X".
Proof. cbv zeta. eexists _, _. split; [cbv; reflexivity|]. split; reflexivity. Qed.

(** A script without steps succeeds with nothing counted. *)
Example empty_script_succeeds :
  fst (execute_script Toy.idle_driver (Script.make (F := Z) "empty" None [] None [])
         (ScriptEngine_init None tt))
  = Ok (mkRunResult true 0 [] None).
Proof. reflexivity. Qed.

(** A failing step under [skip] is counted and the run goes on. *)
Example skipped_step_is_counted :
  fst (execute_script Toy.idle_driver
         (Script.make (F := Z) "s" None [] None
            [action_step_with_policy "click" "skip" (Some 3);
             ScriptStep.default "enable_human_mode"])
         (ScriptEngine_init None tt))
  = Ok (mkRunResult true 2 [] None).
Proof. vm_compute. reflexivity. Qed.

(** * Further properties of the engine *)

(** ** Induction on steps and on computations *)

Section StepInduction.
Context {F : Type}.

(** Induction on a step with the property available for the steps of its
    three bodies. *)
Lemma ScriptStep_nested_ind (P : ScriptStep.t F -> Prop) :
  (forall step,
     Forall_body P (ScriptStep.then_steps step) ->
     Forall_body P (ScriptStep.else_steps step) ->
     Forall_body P (ScriptStep.loop_steps step) ->
     P step) ->
  forall step, P step.
Proof.
  intros H. fix IH 1. intros step.
  destruct step as [a sel url txt val scr sv cond ts es lr lv ls oe mr].
  apply H; cbn [ScriptStep.then_steps ScriptStep.else_steps ScriptStep.loop_steps].
  - destruct ts as [l|]; [|exact I]. induction l as [|s l IHl]; constructor; auto.
  - destruct es as [l|]; [|exact I]. induction l as [|s l IHl]; constructor; auto.
  - destruct ls as [l|]; [|exact I]. induction l as [|s l IHl]; constructor; auto.
Qed.

End StepInduction.

Section PreservationFacts.
Context {F W : Type} {prims : PyPrims F}.
Variable driver : ActionRequest.t F -> W -> (pyval F + exn) * W.
Variable R : Engine F W -> Engine F W -> Prop.
Hypothesis R_refl : forall st, R st st.
Hypothesis R_trans : forall st1 st2 st3, R st1 st2 -> R st2 st3 -> R st1 st3.
Hypothesis R_logger : forall ev, preserves R (logger ev).
Hypothesis R_incr : preserves R incr_steps_completed.
Hypothesis R_set : forall k v, preserves R (set_variable k v).
Hypothesis R_driver : forall f, preserves R (call_driver f).

Local Open Scope engine_scope.

Lemma preserves_ret {A} (a : A) : preserves R (@ret F W A a).
Proof. intros st. apply R_refl. Qed.

Lemma preserves_raise {A} (e : exn) : preserves R (@raise F W A e).
Proof. intros st. apply R_refl. Qed.

Lemma preserves_get_variables : preserves R (@get_variables F W).
Proof. intros st. apply R_refl. Qed.

Lemma preserves_get_executor_variables : preserves R (@get_executor_variables F W).
Proof. intros st. apply R_refl. Qed.

Lemma preserves_bind {A B} (m : @M F W A) (k : A -> @M F W B) :
  preserves R m -> (forall a, preserves R (k a)) -> preserves R (bind m k).
Proof.
  intros Hm Hk st. unfold bind. specialize (Hm st).
  destruct (m st) as [[a|e] st1]; simpl in *.
  - eapply R_trans; [exact Hm|]. apply Hk.
  - exact Hm.
Qed.

Lemma preserves_try_except {A} (m : @M F W A) (h : exn -> @M F W A) :
  preserves R m -> (forall e, preserves R (h e)) -> preserves R (try_except m h).
Proof.
  intros Hm Hh st. unfold try_except. specialize (Hm st).
  destruct (m st) as [[a|e] st1]; simpl in *.
  - exact Hm.
  - eapply R_trans; [exact Hm|]. apply Hh.
Qed.

Lemma preserves_for_each {A} (l : list A) (f : A -> @M F W unit) :
  (forall x, preserves R (f x)) -> preserves R (for_each l f).
Proof.
  intros Hf. induction l as [|x l IH]; cbn [for_each].
  - apply preserves_ret.
  - apply preserves_bind; auto.
Qed.

Lemma preserves_run_steps (exec : ScriptStep.t F -> @M F W (pyval F)) steps :
  Forall (fun s => preserves R (exec s)) steps -> preserves R (run_steps exec steps).
Proof.
  induction 1 as [|s l Hs Hl IH]; cbn [run_steps].
  - apply preserves_ret.
  - apply preserves_bind; auto.
Qed.

Lemma preserves_run_body (exec : ScriptStep.t F -> @M F W (pyval F)) body :
  Forall_body (fun s => preserves R (exec s)) body -> preserves R (run_body exec body).
Proof.
  destruct body as [l|]; simpl.
  - apply preserves_run_steps.
  - intros _. apply preserves_ret.
Qed.

Lemma preserves_compare_floats cmp (a b : pyval F) :
  preserves R (@compare_floats F W prims cmp a b).
Proof. intros st. rewrite compare_floats_state. apply R_refl. Qed.

Lemma preserves_apply_operator (operator a b : pyval F) :
  preserves R (@apply_operator F W prims operator a b).
Proof.
  unfold apply_operator.
  repeat match goal with
    | |- preserves R (if ?c then _ else _) => destruct c
    end;
    try apply preserves_ret; try apply preserves_compare_floats.
  apply preserves_bind; [apply R_logger|]. intros _. apply preserves_ret.
Qed.

Lemma preserves_evaluate_condition (condition : Dict.t (pyval F)) :
  preserves R (@evaluate_condition F W prims condition).
Proof.
  unfold evaluate_condition.
  destruct (negb _ || negb _).
  - apply preserves_bind; [apply R_logger|]. intros _. apply preserves_ret.
  - apply preserves_bind.
    + unfold variables_get. apply preserves_bind; [apply preserves_get_variables|].
      intros vars. destruct (condition_get "variable" condition);
        try apply preserves_ret; try apply preserves_raise.
      destruct (Dict.get s vars); apply preserves_ret.
    + intros actual. apply preserves_bind; [apply preserves_get_variables|].
      intros vars. apply preserves_apply_operator.
Qed.

Lemma preserves_step_to_action (step : ScriptStep.t F) :
  preserves R (@_step_to_action F W prims step).
Proof.
  unfold _step_to_action.
  destruct (ActionType_of_string _); [|apply preserves_raise].
  apply preserves_bind; [apply preserves_get_variables|]. intros vars.
  apply preserves_ret.
Qed.

Lemma preserves_ActionExecutor_execute (action : ActionRequest.t F) :
  preserves R (ActionExecutor_execute driver action).
Proof.
  unfold ActionExecutor_execute.
  apply preserves_bind; [apply preserves_get_executor_variables|]. intros vars.
  apply preserves_bind; [apply R_logger|]. intros _.
  destruct (validate _); [apply preserves_raise|].
  destruct (ActionRequest.action _); try apply R_driver.
  all: apply preserves_bind; [apply R_logger|]; intros _; apply preserves_ret.
Qed.

Lemma preserves_action_branch (step : ScriptStep.t F) :
  preserves R (action_branch driver step).
Proof.
  unfold action_branch.
  apply preserves_bind; [apply preserves_step_to_action|]. intros request.
  apply preserves_bind; [apply preserves_ActionExecutor_execute|]. intros result.
  apply preserves_bind.
  - destruct (truthy_str _); [|apply preserves_ret].
    destruct (ScriptStep.save_as step); [|apply preserves_ret].
    apply preserves_bind; [apply R_set|]. intros _. apply R_logger.
  - intros _. apply preserves_bind; [apply R_incr|]. intros _. apply preserves_ret.
Qed.

Lemma preserves_conditional_branch run_then run_else (step : ScriptStep.t F) :
  preserves R run_then -> preserves R run_else ->
  preserves R (conditional_branch (prims := prims) run_then run_else step).
Proof.
  intros Ht He. unfold conditional_branch.
  apply preserves_bind; [apply preserves_evaluate_condition|]. intros r.
  apply preserves_bind; [apply R_logger|]. intros _.
  apply preserves_bind.
  - destruct (_ && _); [exact Ht|]. destruct (_ && _); [exact He|apply preserves_ret].
  - intros _. apply preserves_bind; [apply R_incr|]. intros _. apply preserves_ret.
Qed.

Lemma preserves_loop_branch run_loop (step : ScriptStep.t F) :
  preserves R run_loop -> preserves R (loop_branch run_loop step).
Proof.
  intros Hl. unfold loop_branch.
  destruct (list_or_nil _) as [|start [|stop [|x rest]]]; try apply preserves_raise.
  apply preserves_bind; [apply R_logger|]. intros _.
  apply preserves_bind.
  - apply preserves_for_each. intros i.
    apply preserves_bind; [apply R_set|]. intros _. exact Hl.
  - intros _. apply preserves_bind; [apply R_incr|]. intros _. apply preserves_ret.
Qed.

Lemma preserves_try_block run_then run_else run_loop (step : ScriptStep.t F) :
  preserves R run_then -> preserves R run_else -> preserves R run_loop ->
  preserves R (try_block driver run_then run_else run_loop step).
Proof.
  intros Ht He Hl. unfold try_block.
  destruct (_ && _); [now apply preserves_conditional_branch|].
  destruct (_ && _); [now apply preserves_loop_branch|].
  apply preserves_action_branch.
Qed.

Lemma preserves_on_exception (step : ScriptStep.t F) retry_count retry e :
  preserves R retry -> preserves R (on_exception step retry_count retry e).
Proof.
  intros Hr. unfold on_exception.
  apply preserves_bind; [apply R_logger|]. intros _.
  destruct (String.eqb _ "skip").
  { apply preserves_bind; [apply R_logger|]. intros _.
    apply preserves_bind; [apply R_incr|]. intros _. apply preserves_ret. }
  destruct (_ && _).
  { apply preserves_bind; [apply R_logger|]. intros _.
    apply preserves_bind; [apply R_logger|]. intros _. exact Hr. }
  destruct (String.eqb _ "abort").
  all: apply preserves_bind; [apply R_logger|]; intros _; apply preserves_raise.
Qed.

Lemma preserves_attempts (step : ScriptStep.t F) body fuel retry_count :
  preserves R body -> preserves R (attempts step body fuel retry_count).
Proof.
  intros Hb. revert retry_count.
  induction fuel as [|fuel IH]; intros retry_count; cbn [attempts].
  all: apply preserves_try_except; [exact Hb|]; intros e.
  all: apply preserves_on_exception.
  - apply preserves_ret.
  - apply IH.
Qed.

(** Whatever the primitive operations preserve, a step preserves. *)
Lemma preserves_execute_step (step : ScriptStep.t F) :
  forall retry_count, preserves R (execute_step driver step retry_count).
Proof.
  induction step as [step Hthen Helse Hloop] using ScriptStep_nested_ind.
  intros retry_count. rewrite execute_step_unfold. cbv zeta.
  apply preserves_attempts. apply preserves_try_block.
  - apply preserves_run_body.
    destruct (ScriptStep.then_steps step); simpl in *; [|exact I].
    eapply Forall_impl; [|exact Hthen]. intros s Hs. apply Hs.
  - apply preserves_run_body.
    destruct (ScriptStep.else_steps step); simpl in *; [|exact I].
    eapply Forall_impl; [|exact Helse]. intros s Hs. apply Hs.
  - apply preserves_run_body.
    destruct (ScriptStep.loop_steps step); simpl in *; [|exact I].
    eapply Forall_impl; [|exact Hloop]. intros s Hs. apply Hs.
Qed.

Lemma preserves_run_script_steps (steps : list (ScriptStep.t F)) :
  preserves R (run_steps (fun step => execute_step driver step 0) steps).
Proof.
  apply preserves_run_steps. apply Forall_forall. intros s _.
  apply preserves_execute_step.
Qed.

End PreservationFacts.

(** ** Invariants of a run *)

Section Invariants.
Context {F W : Type} {prims : PyPrims F}.
Variable driver : ActionRequest.t F -> W -> (pyval F + exn) * W.

Lemma mem_set_keeps {V} k k' (v : V) (d : Dict.t V) :
  Dict.mem k d = true -> Dict.mem k (Dict.set k' v d) = true.
Proof.
  unfold Dict.mem. destruct (String.eqb_spec k' k) as [->|Hne].
  - now rewrite get_set_same.
  - now rewrite get_set_other.
Qed.

Lemma mem_update_keeps {V} k (d other : Dict.t V) :
  Dict.mem k d = true -> Dict.mem k (Dict.update d other) = true.
Proof.
  unfold Dict.update. revert d.
  induction other as [|[k' v'] other IH]; intros d H; simpl; [exact H|].
  apply IH. now apply mem_set_keeps.
Qed.

(** X1.  The engine writes every variable to its own store and to the executor's:
    the two stores, equal when the engine is built, are equal after every
    step, however the step ends. *)
Theorem execute_step_keeps_stores_in_sync
        (step : ScriptStep.t F) (retry_count : Z) (st : Engine F W)
        (Hsync : stores_in_sync st) :
  stores_in_sync (snd (execute_step driver step retry_count st)).
Proof.
  revert Hsync.
  apply (preserves_execute_step driver
           (fun st st' => stores_in_sync st -> stores_in_sync st')).
  - auto.
  - auto.
  - intros ev s H. exact H.
  - intros s H. exact H.
  - intros k v s H. unfold stores_in_sync in *. simpl. now rewrite H.
  - intros f s H. unfold call_driver.
    destruct (f (driver_state s)) as [[v|e] w]; exact H.
Qed.

(** X2.  A whole run, from the construction of the engine on: the result's
    [variables] are also what the executor ends with, and [ScriptEngine_init]
    starts the two stores equal. *)
Theorem execute_script_stores_in_sync
        (script : Script.t F) (initial : option (Dict.t (pyval F))) (w : W) :
  stores_in_sync (ScriptEngine_init initial w) /\
  stores_in_sync (snd (execute_script driver script (ScriptEngine_init initial w))).
Proof.
  split; [reflexivity|].
  set (st0 := ScriptEngine_init initial w).
  assert (Hprep : stores_in_sync (prepared script st0)).
  { unfold stores_in_sync, prepared. simpl. reflexivity. }
  assert (Hrun : stores_in_sync
            (snd (run_steps (fun step => execute_step driver step 0)
                    (Script.steps script) (prepared script st0)))).
  { revert Hprep.
    apply (preserves_run_script_steps driver
             (fun st st' => stores_in_sync st -> stores_in_sync st')).
    - auto.
    - auto.
    - intros ev s H. exact H.
    - intros s H. exact H.
    - intros k v s H. unfold stores_in_sync in *. simpl. now rewrite H.
    - intros f s H. unfold call_driver.
      destruct (f (driver_state s)) as [[v|e] w']; exact H. }
  unfold execute_script. unfold bind at 1. rewrite prepare_ok.
  unfold bind at 1. unfold try_except. unfold bind at 1.
  destruct (run_steps _ (Script.steps script) (prepared script st0)) as [[u|e] st1];
    exact Hrun.
Qed.

(** X3.  The counter of completed steps never goes down during a step, whether
    the step succeeds, is skipped, is retried or raises. *)
Theorem execute_step_counter_monotone
        (step : ScriptStep.t F) (retry_count : Z) (st : Engine F W) :
  steps_completed st <= steps_completed (snd (execute_step driver step retry_count st)).
Proof.
  apply (preserves_execute_step driver
           (fun st st' => steps_completed st <= steps_completed st')).
  - intros. lia.
  - intros. lia.
  - intros ev s. simpl. lia.
  - intros s. simpl. lia.
  - intros k v s. simpl. lia.
  - intros f s. unfold call_driver.
    destruct (f (driver_state s)) as [[v|e] w]; simpl; lia.
Qed.

(** X4.  No step removes a variable: what is in the store before a step is in the
    store after it (possibly with another value). *)
Theorem execute_step_keeps_variables
        (step : ScriptStep.t F) (retry_count : Z) (st : Engine F W) (k : string)
        (Hin : Dict.mem k (variables st) = true) :
  Dict.mem k (variables (snd (execute_step driver step retry_count st))) = true.
Proof.
  revert k Hin. change (keeps_variables st (snd (execute_step driver step retry_count st))).
  apply (preserves_execute_step driver keeps_variables).
  - intros s k H. exact H.
  - intros s1 s2 s3 H12 H23 k H. apply H23, H12, H.
  - intros ev s k H. exact H.
  - intros s k H. exact H.
  - intros k' v s k H. simpl. now apply mem_set_keeps.
  - intros f s k H. unfold call_driver.
    destruct (f (driver_state s)) as [[v|e] w]; exact H.
Qed.

(** X5.  Evaluating a condition has no effect but on the log: the stores, the
    counter and the driver are as they were. *)
Theorem evaluate_condition_no_side_effect
        (condition : Dict.t (pyval F)) (st : Engine F W) :
  same_but_log st (snd (evaluate_condition condition st)).
Proof.
  apply (preserves_evaluate_condition (fun st st' : Engine F W => same_but_log st st')).
  - intros s. repeat split.
  - intros s1 s2 s3 (A1 & A2 & A3 & A4) (B1 & B2 & B3 & B4).
    repeat split; congruence.
  - intros ev s. repeat split.
Qed.

Lemma ActionExecutor_execute_writes_no_variable_aux
      (action : ActionRequest.t F) (st : Engine F W) :
  same_stores_and_count st (snd (ActionExecutor_execute driver action st)).
Proof.
  apply (preserves_ActionExecutor_execute driver
           (fun st st' : Engine F W => same_stores_and_count st st')).
  - intros s. repeat split.
  - intros s1 s2 s3 (A1 & A2 & A3) (B1 & B2 & B3). repeat split; congruence.
  - intros ev s. repeat split.
  - intros f s. unfold call_driver.
    destruct (f (driver_state s)) as [[v|e] w]; repeat split.
Qed.

(** X6.  The executor reads its store and never writes to it: a dispatched action
    leaves both stores and the counter as they were, whether the handler
    returns or raises.  Saving a result is the engine's business. *)
Theorem ActionExecutor_execute_writes_no_variable
        (action : ActionRequest.t F) (st : Engine F W) :
  same_stores_and_count st (snd (ActionExecutor_execute driver action st)).
Proof. apply ActionExecutor_execute_writes_no_variable_aux. Qed.

End Invariants.

(** A store in sync and a variable to keep: the loop over [[1, 3]] run on a
    store that holds [x]. *)
Lemma execute_step_keeps_stores_in_sync_witness :
  stores_in_sync
    (snd (execute_step Toy.idle_driver loop_1_3 0
            (ScriptEngine_init (Some [("x", VInt 7)]) tt))).
Proof.
  apply (execute_step_keeps_stores_in_sync Toy.idle_driver loop_1_3 0
           (ScriptEngine_init (Some [("x", VInt 7)]) tt)).
  reflexivity.
Defined.

Lemma execute_step_keeps_variables_witness :
  Dict.mem "x"
    (variables (snd (execute_step Toy.idle_driver loop_1_3 0
                       (ScriptEngine_init (Some [("x", VInt 7)]) tt)))) = true.
Proof.
  apply (execute_step_keeps_variables Toy.idle_driver loop_1_3 0
           (ScriptEngine_init (Some [("x", VInt 7)]) tt) "x").
  reflexivity.
Defined.

(** ** Error policies *)

Section PolicyFacts.
Context {F W : Type} {prims : PyPrims F}.
Variable driver : ActionRequest.t F -> W -> (pyval F + exn) * W.

Local Open Scope engine_scope.

Lemma execute_step_attempts (step : ScriptStep.t F) (retry_count : Z) :
  execute_step driver step retry_count
  = attempts step (step_try_block driver step) (retries_left step retry_count) retry_count.
Proof. apply execute_step_unfold. Qed.

(** X7.  Under the policy [skip] a step never raises.  If its [try] block
    succeeds, that is the outcome; if it raises, the step returns [None] and
    counts as completed: the counter is one more than the block left it, and
    the stores and the driver are as the block left them. *)
Theorem execute_step_skip_never_raises
        (step : ScriptStep.t F) (retry_count : Z) (st : Engine F W)
        (Hskip : error_strategy step = "skip") :
  match step_try_block driver step st with
  | (Ok v, st1) => execute_step driver step retry_count st = (Ok v, st1)
  | (Raise e, st1) =>
      exists st',
        execute_step driver step retry_count st = (Ok VNone, st') /\
        steps_completed st' = steps_completed st1 + 1 /\
        variables st' = variables st1 /\
        executor_variables st' = executor_variables st1 /\
        driver_state st' = driver_state st1
  end.
Proof.
  rewrite execute_step_attempts.
  destruct (step_try_block driver step st) as [[v|e] st1] eqn:Hbody.
  - destruct (retries_left step retry_count); cbn [attempts];
      unfold try_except; now rewrite Hbody.
  - unfold error_strategy in Hskip.
    destruct (retries_left step retry_count); cbn [attempts];
      unfold try_except; rewrite Hbody; unfold on_exception; rewrite Hskip.
    all: eexists; split; [reflexivity|]; repeat split.
Qed.

(** X8.  Under any policy but [skip] and [retry] (that is [abort], no policy at
    all, or a word the engine does not know) the exception of the [try]
    block is raised again, the same one, and the counter, the stores and the
    driver stay as the block left them. *)
Theorem execute_step_propagates
        (step : ScriptStep.t F) (retry_count : Z) (st : Engine F W)
        (Hnot_skip : error_strategy step <> "skip")
        (Hnot_retry : error_strategy step <> "retry") :
  match step_try_block driver step st with
  | (Ok v, st1) => execute_step driver step retry_count st = (Ok v, st1)
  | (Raise e, st1) =>
      exists st',
        execute_step driver step retry_count st = (Raise e, st') /\
        steps_completed st' = steps_completed st1 /\
        variables st' = variables st1 /\
        executor_variables st' = executor_variables st1 /\
        driver_state st' = driver_state st1
  end.
Proof.
  rewrite execute_step_attempts.
  destruct (step_try_block driver step st) as [[v|e] st1] eqn:Hbody.
  - destruct (retries_left step retry_count); cbn [attempts];
      unfold try_except; now rewrite Hbody.
  - unfold error_strategy in *.
    apply String.eqb_neq in Hnot_skip, Hnot_retry.
    destruct (retries_left step retry_count); cbn [attempts];
      unfold try_except; rewrite Hbody; unfold on_exception;
      rewrite Hnot_skip, Hnot_retry; cbn [andb].
    all: destruct (String.eqb _ "abort").
    all: eexists; split; [reflexivity|]; repeat split.
Qed.

End PolicyFacts.

Lemma execute_step_skip_never_raises_witness :
  exists st',
    execute_step Toy.failing_driver (action_step_with_policy "get_url" "skip" (Some 3)) 0
                 (ScriptEngine_init None tt) = (Ok VNone, st') /\
    steps_completed st' = 1.
Proof.
  pose proof (execute_step_skip_never_raises Toy.failing_driver
                (action_step_with_policy "get_url" "skip" (Some 3)) 0
                (ScriptEngine_init None tt) eq_refl) as H.
  cbv in H. destruct H as (st' & Hrun & Hcount & _).
  exists st'. split; [cbv; exact Hrun | exact Hcount].
Defined.

Lemma execute_step_propagates_witness :
  exists st',
    execute_step Toy.failing_driver (action_step_with_policy "get_url" "ignore" (Some 3)) 0
                 (ScriptEngine_init None tt)
    = (Raise (mkExn (OtherException "Exception") "driver failure"), st') /\
    steps_completed st' = 0.
Proof.
  assert (H1 : error_strategy (action_step_with_policy "get_url" "ignore" (Some 3)) <> "skip")
    by discriminate.
  assert (H2 : error_strategy (action_step_with_policy "get_url" "ignore" (Some 3)) <> "retry")
    by discriminate.
  pose proof (execute_step_propagates Toy.failing_driver
                (action_step_with_policy "get_url" "ignore" (Some 3)) 0
                (ScriptEngine_init None tt) H1 H2) as H.
  cbv in H. destruct H as (st' & Hrun & Hcount & _).
  exists st'. split; [cbv; exact Hrun | exact Hcount].
Defined.

(** ** Results, loops and conditionals *)

Section BranchFacts.
Context {F W : Type} {prims : PyPrims F}.
Variable driver : ActionRequest.t F -> W -> (pyval F + exn) * W.

Local Open Scope engine_scope.

Lemma step_to_action_state (step : ScriptStep.t F) (st : Engine F W) :
  snd (_step_to_action step st) = st.
Proof.
  unfold _step_to_action.
  destruct (ActionType_of_string _); reflexivity.
Qed.

(** X9.  An action that succeeds is counted once and its result is saved: with
    [save_as] a non-empty name, both stores get the result under that name,
    where later steps read it; with [save_as] missing or empty, the stores
    are as before. *)
Theorem action_branch_saves_result
        (step : ScriptStep.t F) (st st' : Engine F W) (result : pyval F)
        (Hrun : action_branch driver step st = (Ok result, st')) :
  variables st' = saved (ScriptStep.save_as step) result (variables st) /\
  executor_variables st'
    = saved (ScriptStep.save_as step) result (executor_variables st) /\
  steps_completed st' = steps_completed st + 1 /\
  (forall name, ScriptStep.save_as step = Some name -> name <> "" ->
     Dict.get name (variables st') = Some result).
Proof.
  assert (Hmain :
    variables st' = saved (ScriptStep.save_as step) result (variables st) /\
    executor_variables st'
      = saved (ScriptStep.save_as step) result (executor_variables st) /\
    steps_completed st' = steps_completed st + 1).
  { revert Hrun. unfold action_branch. unfold bind at 1.
    pose proof (step_to_action_state step st) as Hs.
    destruct (_step_to_action step st) as [[request|e] st0]; [|discriminate].
    simpl in Hs. subst st0. unfold bind at 1.
    pose proof (ActionExecutor_execute_writes_no_variable_aux driver request st)
      as (Hv & Hev & Hc).
    destruct (ActionExecutor_execute driver request st) as [[v|e] st1]; [|discriminate].
    simpl in Hv, Hev, Hc. unfold saved.
    destruct (ScriptStep.save_as step) as [name|]; cbn [truthy_str].
    - destruct (String.eqb name ""); cbn [negb].
      + intros [= <- <-]. simpl. repeat split; congruence.
      + intros [= <- <-]. simpl. repeat split; congruence.
    - intros [= <- <-]. simpl. repeat split; congruence. }
  destruct Hmain as (Hv & Hev & Hc). repeat split; auto.
  intros name Hname Hne. rewrite Hv, Hname. simpl.
  apply String.eqb_neq in Hne. rewrite Hne. apply get_set_same.
Qed.

(** X10.  A loop whose range is empty ([stop < start]) runs its body not once and
    does not write the loop variable; it still counts as one completed
    step. *)
Theorem empty_range_loop
        (step : ScriptStep.t F) (start stop : Z) (retry_count : Z) (st : Engine F W)
        (Hnot_conditional :
           truthy_list (ScriptStep.condition step)
           && truthy_list (ScriptStep.then_steps step) = false)
        (Hrange : ScriptStep.loop_range step = Some [start; stop])
        (Hsteps : truthy_list (ScriptStep.loop_steps step) = true)
        (Hempty : stop < start) :
  execute_step driver step retry_count st
  = (Ok VNone,
     mkEngine (variables st) (executor_variables st) (steps_completed st + 1)
              (driver_state st)
              (log st ++ [LogLoopStart start stop
                            (str_or (ScriptStep.loop_variable step) "i")])).
Proof.
  destruct (execute_step_shape_priority_aux driver step retry_count) as (_ & Hloop & _).
  rewrite Hloop; [|exact Hnot_conditional|rewrite Hrange, Hsteps; reflexivity].
  assert (Hbody : forall run_loop,
    loop_branch run_loop step st
    = (Ok VNone,
       mkEngine (variables st) (executor_variables st) (steps_completed st + 1)
                (driver_state st)
                (log st ++ [LogLoopStart start stop
                              (str_or (ScriptStep.loop_variable step) "i")]))).
  { intros run_loop. unfold loop_branch. rewrite Hrange. cbn [list_or_nil].
    rewrite py_range_nil by lia. reflexivity. }
  destruct (retries_left step retry_count); cbn [attempts]; unfold try_except;
    now rewrite Hbody.
Qed.

(** X11.  A [loop_range] that is not empty and does not have exactly two elements
    is an error of the step: its [try] block raises [ValueError] before
    anything is written or run. *)
Theorem malformed_loop_range
        (step : ScriptStep.t F) (range : list Z) (st : Engine F W)
        (Hnot_conditional :
           truthy_list (ScriptStep.condition step)
           && truthy_list (ScriptStep.then_steps step) = false)
        (Hrange : ScriptStep.loop_range step = Some range)
        (Hnonempty : range <> [])
        (Hlength : List.length range <> 2%nat)
        (Hsteps : truthy_list (ScriptStep.loop_steps step) = true) :
  step_try_block driver step st
  = (Raise (mkExn ValueError "loop_range must have exactly 2 elements: [start, end]"), st).
Proof.
  unfold step_try_block, try_block, loop_branch. cbv zeta.
  rewrite Hnot_conditional, Hrange, Hsteps.
  destruct range as [|a [|b [|c rest]]]; try contradiction; reflexivity.
Qed.

(** X12.  A conditional step evaluates its condition, runs the [then] body when
    the value is true and the [else] body when it is false (a missing or empty
    [else] body runs nothing), never both, and then counts itself once.  An
    exception from the evaluation or from the body goes to the step's error
    policy. *)
Theorem conditional_step_routes
        (step : ScriptStep.t F) (st : Engine F W)
        (Hconditional :
           truthy_list (ScriptStep.condition step)
           && truthy_list (ScriptStep.then_steps step) = true) :
  let exec := fun s => execute_step driver s 0 in
  step_try_block driver step st
  = match evaluate_condition (list_or_nil (ScriptStep.condition step)) st with
    | (Raise e, st1) => (Raise e, st1)
    | (Ok r, st1) =>
        let body := if py_truthy r then ScriptStep.then_steps step
                    else ScriptStep.else_steps step in
        match run_body exec body (snd (logger (LogConditionResult r) st1)) with
        | (Raise e, st2) => (Raise e, st2)
        | (Ok _, st2) => (Ok VNone, snd (incr_steps_completed st2))
        end
    end.
Proof.
  cbv zeta. unfold step_try_block, try_block. cbv zeta. rewrite Hconditional.
  apply andb_true_iff in Hconditional as [_ Hthen].
  unfold conditional_branch. unfold bind at 1.
  destruct (evaluate_condition _ st) as [[r|e] st1]; [|reflexivity].
  unfold bind at 1. cbn [logger]. rewrite Hthen, andb_true_r.
  unfold bind at 1. cbn [logger snd].
  destruct (py_truthy r); cbn [negb andb].
  - destruct (run_body _ (ScriptStep.then_steps step) _) as [[u|e] st2]; reflexivity.
  - destruct (ScriptStep.else_steps step) as [[|s l]|]; cbn [truthy_list run_body].
    + reflexivity.
    + match goal with
      | |- context [run_steps ?ex (s :: l) ?x] =>
          destruct (run_steps ex (s :: l) x) as [[u|e] st2]; reflexivity
      end.
    + reflexivity.
Qed.

End BranchFacts.

Lemma action_branch_saves_result_witness :
  Dict.get "page"
    (variables (snd (action_branch Toy.counting_driver save_step (ScriptEngine_init None 0))))
  = Some (VInt 1).
Proof.
  assert (Hrun : action_branch Toy.counting_driver save_step (ScriptEngine_init None 0)
                 = (Ok (VInt 1),
                    snd (action_branch Toy.counting_driver save_step (ScriptEngine_init None 0))))
    by (vm_compute; reflexivity).
  destruct (action_branch_saves_result Toy.counting_driver save_step _ _ _ Hrun)
    as (_ & _ & _ & Hget).
  apply (Hget "page" eq_refl). discriminate.
Defined.

Lemma empty_range_loop_witness :
  fst (execute_step Toy.idle_driver (loop_over [3; 1]) 0 (ScriptEngine_init None tt))
  = Ok VNone /\
  variables (snd (execute_step Toy.idle_driver (loop_over [3; 1]) 0 (ScriptEngine_init None tt)))
  = [].
Proof.
  assert (Hempty : 1 < 3) by lia.
  rewrite (empty_range_loop Toy.idle_driver (loop_over [3; 1]) 3 1 0
             (ScriptEngine_init None tt) eq_refl eq_refl eq_refl Hempty).
  split; reflexivity.
Defined.

Lemma malformed_loop_range_witness :
  fst (step_try_block Toy.idle_driver (loop_over [1; 2; 3]) (ScriptEngine_init None tt))
  = Raise (mkExn ValueError "loop_range must have exactly 2 elements: [start, end]").
Proof.
  assert (H1 : [1; 2; 3] <> []) by discriminate.
  assert (H2 : List.length [1; 2; 3] <> 2%nat) by discriminate.
  rewrite (malformed_loop_range Toy.idle_driver (loop_over [1; 2; 3]) [1; 2; 3]
             (ScriptEngine_init None tt) eq_refl eq_refl H1 H2 eq_refl).
  reflexivity.
Defined.

Lemma conditional_step_routes_witness :
  fst (step_try_block Toy.idle_driver conditional_on_x (ScriptEngine_init None tt))
  = Ok VNone /\
  steps_completed
    (snd (step_try_block Toy.idle_driver conditional_on_x (ScriptEngine_init None tt))) = 1.
Proof.
  rewrite (conditional_step_routes Toy.idle_driver conditional_on_x
             (ScriptEngine_init None tt) eq_refl).
  split; reflexivity.
Defined.

(** ** Operators that come in pairs *)

Section OperatorPairs.
Context {F W : Type} {prims : PyPrims F}.

Lemma evaluate_condition_of (n o : string) (v : pyval F) (st : Engine F W) :
  n <> "" -> o <> "" ->
  evaluate_condition (condition_of n o v) st
  = apply_operator (VStr o) (lookup n st) (interpolate_value (variables st) v) st.
Proof.
  intros Hn Ho.
  rewrite (evaluate_condition_dispatch (condition_of n o v) st n eq_refl Hn).
  - reflexivity.
  - simpl. apply String.eqb_neq in Ho. now rewrite Ho.
Qed.

(** X13.  For a named variable, [not_equals], [not_contains] and [not_exists]
    return the negation of [equals], [contains] and [exists] on the same
    variable and literal: exactly one of each pair holds. *)
Theorem negated_operators_are_complements
        (n : string) (v : pyval F) (st : Engine F W) (Hn : n <> "") :
  (exists b,
     fst (evaluate_condition (condition_of n "equals" v) st) = Ok (VBool b) /\
     fst (evaluate_condition (condition_of n "not_equals" v) st) = Ok (VBool (negb b))) /\
  (exists b,
     fst (evaluate_condition (condition_of n "contains" v) st) = Ok (VBool b) /\
     fst (evaluate_condition (condition_of n "not_contains" v) st) = Ok (VBool (negb b))) /\
  (exists b,
     fst (evaluate_condition (condition_of n "exists" v) st) = Ok (VBool b) /\
     fst (evaluate_condition (condition_of n "not_exists" v) st) = Ok (VBool (negb b))).
Proof.
  rewrite !evaluate_condition_of by (assumption || discriminate).
  repeat split.
  - eexists. split; reflexivity.
  - eexists. split; reflexivity.
  - exists (match lookup n st with VNone => false | _ => true end).
    split; [reflexivity|]. simpl. destruct (lookup n st); reflexivity.
Qed.

(** X14.  The numeric operators do not pair up that way: when one operand is not
    a number, [greater_than] and its opposite [less_equal] are both false,
    and so are [less_than] and [greater_equal]. *)
Theorem numeric_operators_both_false
        (n : string) (v : pyval F) (st : Engine F W) (e : exn)
        (Hn : n <> "")
        (Hfail : py_float (lookup n st) = inr e)
        (Hcls : exn_cls e = ValueError \/ exn_cls e = TypeError) :
  forall o, In o numeric_operators ->
    fst (evaluate_condition (condition_of n o v) st) = Ok (VBool false).
Proof.
  intros o Ho.
  assert (Hne : o <> "").
  { simpl in Ho. destruct Ho as [<-|[<-|[<-|[<-|[]]]]]; discriminate. }
  rewrite evaluate_condition_of by assumption.
  destruct (apply_operator_numeric (W := W) o (lookup n st)
              (interpolate_value (variables st) v) st Ho) as [cmp ->].
  eapply compare_floats_left_fails; eauto.
Qed.

End OperatorPairs.

Lemma negated_operators_are_complements_witness :
  fst (evaluate_condition (F := Z) (W := unit) (condition_of "x" "not_equals" (VStr "1"))
         (ScriptEngine_init (Some [("x", VInt 1)]) tt)) = Ok (VBool false).
Proof.
  assert (Hn : "x" <> "") by discriminate.
  destruct (negated_operators_are_complements (F := Z) (W := unit) "x" (VStr "1")
              (ScriptEngine_init (Some [("x", VInt 1)]) tt) Hn)
    as ((b & Heq & Hne) & _).
  rewrite Hne. vm_compute in Heq. injection Heq as <-. reflexivity.
Defined.

Lemma numeric_operators_both_false_witness :
  fst (evaluate_condition (F := Z) (W := unit) (condition_of "x" "greater_than" (VStr "1"))
         (ScriptEngine_init (Some [("x", VStr "abc")]) tt)) = Ok (VBool false) /\
  fst (evaluate_condition (F := Z) (W := unit) (condition_of "x" "less_equal" (VStr "1"))
         (ScriptEngine_init (Some [("x", VStr "abc")]) tt)) = Ok (VBool false).
Proof.
  assert (Hn : "x" <> "") by discriminate.
  pose proof (numeric_operators_both_false (F := Z) (W := unit) "x" (VStr "1")
                (ScriptEngine_init (Some [("x", VStr "abc")]) tt)
                (mkExn ValueError "could not convert string to float: 'abc'")
                Hn eq_refl (or_introl eq_refl)) as H.
  split; apply H; simpl; auto.
Defined.

(** ** The enumeration of action kinds *)

(** X15.  [ActionType(s)] and [.value] are inverse to each other: every member is
    found by its value, and a string that names a member is that member's
    value, so no two members share a value. *)
Theorem ActionType_value_round_trip :
  (forall a, ActionType_of_string (ActionType_value a) = Some a) /\
  (forall s a, ActionType_of_string s = Some a -> ActionType_value a = s).
Proof.
  split.
  - intros a. destruct a; reflexivity.
  - intros s a. unfold ActionType_of_string, ActionType_members.
    cbn [Dict.get].
    repeat match goal with
      | |- (if String.eqb s ?lit then _ else _) = _ -> _ =>
          destruct (String.eqb_spec s lit) as [->|_];
          [intros [= <-]; reflexivity|]
      end.
    discriminate.
Qed.

(** ** The merge of [run_script] *)

Section MergeFacts.
Context {F : Type}.

(** X16.  In the merge that [run_script] makes before it builds the engine, a
    variable of the request takes the request's value, and a variable only
    the script declares keeps the script's default. *)
Theorem merge_request_variables_caller_first
        (script : Script.t F) (request : Dict.t (pyval F))
        (Hkeys : NoDup (Dict.keys request)) :
  (forall k v, In (k, v) request ->
     Dict.get k (merge_request_variables script (Some request)) = Some v) /\
  (forall k, ~ In k (Dict.keys request) ->
     Dict.get k (merge_request_variables script (Some request))
     = Dict.get k (Script.variables script)).
Proof.
  unfold merge_request_variables, Dict.copy.
  destruct request as [|x d].
  - split; [intros k v []|reflexivity].
  - split.
    + intros k v Hin. now apply get_update_present.
    + intros k Hnot. now apply get_update_absent.
Qed.

End MergeFacts.

Lemma merge_request_variables_caller_first_witness :
  Dict.get "x"
    (merge_request_variables
       (Script.make (F := Z) "s" None [("x", VInt 1); ("y", VInt 5)] None [])
       (Some [("x", VInt 2)])) = Some (VInt 2) /\
  Dict.get "y"
    (merge_request_variables
       (Script.make (F := Z) "s" None [("x", VInt 1); ("y", VInt 5)] None [])
       (Some [("x", VInt 2)])) = Some (VInt 5).
Proof.
  assert (Hkeys : NoDup (Dict.keys [("x", VInt (F := Z) 2)])).
  { repeat constructor. simpl. tauto. }
  destruct (merge_request_variables_caller_first
              (Script.make (F := Z) "s" None [("x", VInt 1); ("y", VInt 5)] None [])
              [("x", VInt 2)] Hkeys) as [Hin Hout].
  split.
  - apply Hin. left. reflexivity.
  - rewrite Hout; [reflexivity|]. simpl. intros [E|[]]. discriminate E.
Defined.

(** ** A name that is a prefix of another *)

Section PrefixFacts.
Context {F : Type} {prims : PyPrims F}.

Lemma prefix_append (p rest : string) : String.prefix p (p ++ rest) = true.
Proof.
  induction p as [|c p IH]; simpl.
  - destruct rest; reflexivity.
  - destruct (ascii_dec c c) as [_|Hne]; [exact IH|contradiction].
Qed.

Lemma replace_from_skip (old new p rest : string) :
  PyStr.replace_from old new (String.length p) (p ++ rest)
  = PyStr.replace_from old new 0 rest.
Proof.
  induction p as [|c p IH]; [reflexivity|]. simpl. exact IH.
Qed.

(** An occurrence at the very start is replaced and the scan goes on behind
    it. *)
Lemma replace_at_start (c : ascii) (p new rest : string) :
  PyStr.replace (String c p ++ rest) (String c p) new
  = new ++ PyStr.replace rest (String c p) new.
Proof.
  unfold PyStr.replace.
  change (String c p ++ rest) with (String c (p ++ rest)).
  cbn [PyStr.replace_from].
  change (String c (p ++ rest)) with (String c p ++ rest).
  rewrite prefix_append.
  replace (String.length (String c p) - 1)%nat with (String.length p)
    by (cbn [String.length]; lia).
  now rewrite replace_from_skip.
Qed.

Lemma has_char_append (c : ascii) (a b : string) :
  PyStr.has_char c (a ++ b) = PyStr.has_char c a || PyStr.has_char c b.
Proof.
  induction a as [|d a IH]; simpl; [reflexivity|].
  rewrite IH. now rewrite orb_assoc.
Qed.

(** X17.  A variable [k] that stands first in the store takes every placeholder
    that begins with [$k]: the text [$k] followed by [x] becomes the value of
    [k] followed by [x], and no later variable, not even one named [k ++ x],
    gets to see its placeholder (provided neither the value nor [x] holds
    another [$]). *)
Theorem placeholder_captured_by_prefix
        (vars : Dict.t (pyval F)) (k x : string) (v : pyval F)
        (Hclean : PyStr.has_char "$" (py_str v ++ x) = false) :
  interpolate_string ((k, v) :: vars) ("$" ++ k ++ x) = py_str v ++ x.
Proof.
  unfold interpolate_string. cbn [fold_left].
  rewrite interpolate_one_replace.
  change ("$" ++ k ++ x) with (String "$"%char k ++ x).
  change ("$" ++ k) with (String "$"%char k).
  rewrite replace_at_start.
  assert (Hx : PyStr.has_char "$" x = false).
  { rewrite has_char_append in Hclean. now apply orb_false_iff in Hclean. }
  rewrite (replace_absent x "$"%char k) by now apply contains_needs_first_char.
  apply (interpolate_string_no_dollar vars). exact Hclean.
Qed.

End PrefixFacts.

Lemma placeholder_captured_by_prefix_witness :
  interpolate_string (F := Z) [("user", VStr "bob"); ("username", VStr "alice")] "$username"
  = "bobname".
Proof.
  apply (placeholder_captured_by_prefix (F := Z) [("username", VStr "alice")]
           "user" "name" (VStr "bob")).
  reflexivity.
Defined.

(** ** Batches of actions *)

Section BatchFacts.
Context {F W : Type}.
Variable execute_action : ActionRequest.t F -> @M F W (pyval F).

Local Open Scope engine_scope.

Lemma stops_at_first_failure_cons (r : ActionResponse.t F) results :
  ActionResponse.success r = true ->
  stops_at_first_failure results -> stops_at_first_failure (r :: results).
Proof.
  intros Hr (oks & tail & -> & Hoks & Htail).
  exists (r :: oks), tail. repeat split; auto.
Qed.

Lemma count_success_cons (r : ActionResponse.t F) l :
  count_success (r :: l)
  = (if ActionResponse.success r then 1 else 0) + count_success l.
Proof.
  unfold count_success. cbn [filter].
  destruct (ActionResponse.success r); cbn [List.length]; lia.
Qed.

Lemma count_failure_cons (r : ActionResponse.t F) l :
  count_failure (r :: l)
  = (if ActionResponse.success r then 0 else 1) + count_failure l.
Proof.
  unfold count_failure. cbn [filter].
  destruct (ActionResponse.success r); cbn [negb List.length]; lia.
Qed.

(** What the loop adds to its accumulators. *)
Lemma batch_loop_spec (stop_on_error : bool) :
  forall actions results completed failed st,
    exists new st',
      batch_loop execute_action stop_on_error actions (results, completed, failed) st
      = (Ok ((results ++ new)%list,
             completed + count_success new, failed + count_failure new), st') /\
      (List.length new <= List.length actions)%nat /\
      map ActionResponse.action new = firstn (List.length new) (map (fun a => ActionType_value (ActionRequest.action a)) actions) /\
      (stop_on_error = true -> stops_at_first_failure new) /\
      (stop_on_error = false -> List.length new = List.length actions).
Proof.
  induction actions as [|a rest IH]; intros results completed failed st.
  - exists [], st. cbn [batch_loop]. unfold ret, count_success, count_failure.
    rewrite app_nil_r, !Z.add_0_r. repeat split; auto.
    intros _. exists [], []. repeat split; auto.
  - cbn [batch_loop]. unfold bind at 1. unfold batch_turn, try_except. unfold bind at 1.
    destruct (execute_action a st) as [[result|e] st1]; cbn [ret].
    + destruct (IH (results ++ [ActionResponse.make true (ActionType_value (ActionRequest.action a)) result None])%list
                   (completed + 1) failed st1)
        as (new & st' & Hrun & Hlen & Hnames & Hstop & Hall).
      exists (ActionResponse.make true (ActionType_value (ActionRequest.action a)) result None :: new), st'.
      split.
      { rewrite Hrun. rewrite <- app_assoc. cbn [app].
        rewrite count_success_cons, count_failure_cons. cbn [ActionResponse.success].
        replace (completed + 1 + count_success new)
          with (completed + (1 + count_success new)) by lia.
        reflexivity. }
      split; [simpl; lia|].
      split; [cbn [List.length map firstn ActionResponse.action]; now rewrite Hnames|].
      split.
      * intros Hs. apply stops_at_first_failure_cons; auto.
      * intros Hs. simpl. now rewrite Hall.
    + destruct stop_on_error; cbn [negb].
      * exists [ActionResponse.make false (ActionType_value (ActionRequest.action a)) VNone (Some (exn_msg e))], st1.
        split.
        { unfold ret, count_success, count_failure. simpl.
          now rewrite Z.add_0_r. }
        split; [simpl; lia|].
        split; [reflexivity|].
        split; [|discriminate].
        intros _. exists [], [ActionResponse.make false (ActionType_value (ActionRequest.action a)) VNone (Some (exn_msg e))].
        repeat split; auto. right. eexists. split; reflexivity.
      * destruct (IH (results ++ [ActionResponse.make false (ActionType_value (ActionRequest.action a)) VNone (Some (exn_msg e))])%list
                     completed (failed + 1) st1)
          as (new & st' & Hrun & Hlen & Hnames & Hstop & Hall).
        exists (ActionResponse.make false (ActionType_value (ActionRequest.action a)) VNone (Some (exn_msg e)) :: new), st'.
        split.
        { rewrite Hrun. rewrite <- app_assoc. cbn [app].
          rewrite count_success_cons, count_failure_cons. cbn [ActionResponse.success].
          replace (failed + 1 + count_failure new)
            with (failed + (1 + count_failure new)) by lia.
          reflexivity. }
        split; [simpl; lia|].
        split; [cbn [List.length map firstn ActionResponse.action]; now rewrite Hnames|].
        split; [discriminate|].
        intros _. simpl. now rewrite Hall.
Qed.

(** X18.  Once the session and its driver have been found (the lookups at
    the head of the endpoint raise when they are not, and are not part of
    [execute_batch_actions] here), the rest of the endpoint, from the
    construction of the executor on, raises nothing whatever the actions
    do, and the counters of its response agree with its list of responses:
    [completed] is the number of successes in [results], [failed] the number
    of failures, together the length of [results]; [success] says that
    nothing failed; and the responses are those of the first actions of the
    batch, in order. *)
Theorem execute_batch_actions_counts
        (actions : list (ActionRequest.t F)) (stop_on_error : bool) (st : Engine F W) :
  exists response st',
    execute_batch_actions execute_action actions stop_on_error st = (Ok response, st') /\
    BatchActionResponse.completed response
      = count_success (BatchActionResponse.results response) /\
    BatchActionResponse.failed response
      = count_failure (BatchActionResponse.results response) /\
    BatchActionResponse.completed response + BatchActionResponse.failed response
      = Z.of_nat (List.length (BatchActionResponse.results response)) /\
    (BatchActionResponse.success response = true
     <-> Forall (fun r => ActionResponse.success r = true)
                (BatchActionResponse.results response)) /\
    map ActionResponse.action (BatchActionResponse.results response)
      = firstn (List.length (BatchActionResponse.results response))
               (map (fun a => ActionType_value (ActionRequest.action a)) actions).
Proof.
  unfold execute_batch_actions. unfold bind at 1.
  destruct (batch_loop_spec stop_on_error actions [] 0 0 st)
    as (new & st' & Hrun & Hlen & Hnames & _ & _).
  rewrite Hrun. cbn [app ret]. eexists _, _. split; [reflexivity|].
  cbn [BatchActionResponse.completed BatchActionResponse.failed
       BatchActionResponse.results BatchActionResponse.success].
  rewrite !Z.add_0_l.
  assert (Hsum : count_success new + count_failure new = Z.of_nat (List.length new)).
  { clear. induction new as [|r l IH]; [reflexivity|].
    rewrite count_success_cons, count_failure_cons. cbn [List.length].
    destruct (ActionResponse.success r); lia. }
  assert (Hnonneg : forall l : list (ActionResponse.t F), 0 <= count_failure l).
  { intros l. unfold count_failure. lia. }
  assert (Hall : count_failure new = 0
                 <-> Forall (fun r => ActionResponse.success r = true) new).
  { clear - Hnonneg. induction new as [|r l IH].
    - split; [constructor|reflexivity].
    - rewrite count_failure_cons. destruct (ActionResponse.success r) eqn:E.
      + rewrite Z.add_0_l, IH. split; [now constructor|]. now inversion 1.
      + specialize (Hnonneg l). split; [lia|]. inversion 1; congruence. }
  repeat split; auto.
  - intros H. apply Hall. now apply Z.eqb_eq.
  - intros H. apply Z.eqb_eq. now apply Hall.
Qed.


End BatchFacts.

(** ** Sessions *)

Section DictRemoveFacts.
Context {V : Type}.
Implicit Types (d : Dict.t V) (k : string) (v : V).

Lemma get_remove_same k d : Dict.get k (dict_remove k d) = None.
Proof.
  induction d as [|[k' v'] d IH]; [reflexivity|].
  unfold dict_remove in *. cbn [filter fst].
  destruct (String.eqb k k') eqn:E; cbn [negb]; [exact IH|].
  cbn [Dict.get]. now rewrite E.
Qed.

Lemma get_remove_other k k' d :
  k <> k' -> Dict.get k' (dict_remove k d) = Dict.get k' d.
Proof.
  intros Hne. induction d as [|[k0 v0] d IH]; [reflexivity|].
  unfold dict_remove in *. cbn [filter fst].
  destruct (String.eqb_spec k k0) as [<-|Hk]; cbn [negb Dict.get].
  - destruct (String.eqb_spec k' k) as [->|_]; [contradiction|exact IH].
  - now rewrite IH.
Qed.

Lemma remove_absent k d : ~ In k (Dict.keys d) -> dict_remove k d = d.
Proof.
  induction d as [|[k' v'] d IH]; intros Hnot; [reflexivity|].
  unfold dict_remove in *. cbn [filter fst]. simpl in Hnot.
  destruct (String.eqb_spec k k') as [->|_]; [tauto|].
  cbn [negb]. rewrite IH by tauto. reflexivity.
Qed.

Lemma remove_set_same k v d : dict_remove k (Dict.set k v d) = dict_remove k d.
Proof.
  induction d as [|[k' v'] d IH]; unfold dict_remove in *; cbn [Dict.set filter fst].
  - now rewrite String.eqb_refl.
  - destruct (String.eqb k k') eqn:E; cbn [filter fst]; rewrite E; cbn [negb].
    + reflexivity.
    + now rewrite IH.
Qed.

Lemma length_set_present k v d :
  Dict.mem k d = true -> List.length (Dict.set k v d) = List.length d.
Proof.
  unfold Dict.mem. induction d as [|[k' v'] d IH]; cbn [Dict.get Dict.set].
  - discriminate.
  - destruct (String.eqb k k'); cbn [List.length]; [reflexivity|].
    intros H. now rewrite IH.
Qed.

Lemma mem_keys k d : Dict.mem k d = true <-> In k (Dict.keys d).
Proof.
  unfold Dict.mem, Dict.keys. induction d as [|[k' v'] d IH]; cbn [Dict.get map fst In].
  - split; [discriminate|tauto].
  - destruct (String.eqb_spec k k') as [->|Hne].
    + split; auto.
    + rewrite IH. split; [auto|]. intros [E|H]; [congruence|exact H].
Qed.

(** In a dictionary without repeated keys, the entry behind [a] is the one
    [get] and [set] reach. *)
Lemma get_middle k v (a b : Dict.t V) :
  ~ In k (Dict.keys a) -> Dict.get k (a ++ (k, v) :: b)%list = Some v.
Proof.
  induction a as [|[k' v'] a IH]; intros Hnot; cbn [app Dict.get].
  - now rewrite String.eqb_refl.
  - simpl in Hnot. destruct (String.eqb_spec k k') as [->|_]; [tauto|].
    apply IH. tauto.
Qed.

Lemma set_middle k v v' (a b : Dict.t V) :
  ~ In k (Dict.keys a) ->
  Dict.set k v' (a ++ (k, v) :: b)%list = (a ++ (k, v') :: b)%list.
Proof.
  induction a as [|[k0 v0] a IH]; intros Hnot; cbn [app Dict.set].
  - now rewrite String.eqb_refl.
  - simpl in Hnot. destruct (String.eqb_spec k k0) as [->|_]; [tauto|].
    rewrite IH by tauto. reflexivity.
Qed.

End DictRemoveFacts.

Section SessionFacts.
Context {F C W : Type}.
Variable new_engine : C -> W + exn.
Variable driver_url : W -> option string.
Variable driver_title : W -> option string.
Variable limit_message : Z -> string.

Local Abbreviation manager := (SessionManager.t F C W).

(** X20.  At the limit no session is created: the call raises [RuntimeError]
    before a browser is started, and the manager is as it was. *)
Theorem create_session_at_limit
        (config : C) (name : option string) (session_id : string) (now : Z) (m : manager)
        (Hfull : SessionManager.max_sessions m
                 <= Z.of_nat (List.length (SessionManager.sessions m))) :
  create_session new_engine driver_url driver_title limit_message
    config name session_id now m
  = (Raise (mkExn RuntimeError (limit_message (SessionManager.max_sessions m))), m).
Proof.
  unfold create_session.
  destruct (Z.geb_spec (Z.of_nat (List.length (SessionManager.sessions m)))
                       (SessionManager.max_sessions m)); [reflexivity|lia].
Qed.

(** X21.  Below the limit, and with a browser that starts, the session is stored
    and [get_session] finds it: active, with its name and configuration, the
    driver up and no variables; the manager holds one session more when the
    identifier is new. *)
Theorem create_session_then_get
        (config : C) (name : option string) (session_id : string) (now later : Z)
        (m : manager) (w : W)
        (Hroom : Z.of_nat (List.length (SessionManager.sessions m))
                 < SessionManager.max_sessions m)
        (Hengine : new_engine config = inl w) :
  exists info m',
    create_session new_engine driver_url driver_title limit_message
    config name session_id now m = (Ok info, m') /\
    SessionInfo.session_id info = session_id /\
    SessionInfo.status info = ACTIVE /\
    fst (get_session session_id later m')
    = Some (Session.make (Some w) config name ACTIVE now later []) /\
    (Dict.mem session_id (SessionManager.sessions m) = false ->
     List.length (SessionManager.sessions m')
     = S (List.length (SessionManager.sessions m))).
Proof.
  unfold create_session.
  destruct (Z.geb_spec (Z.of_nat (List.length (SessionManager.sessions m)))
                       (SessionManager.max_sessions m)); [lia|].
  rewrite Hengine. eexists _, _. split; [reflexivity|].
  split; [reflexivity|]. split; [reflexivity|].
  split.
  - unfold get_session, with_sessions. cbn [SessionManager.sessions].
    rewrite get_set_same. reflexivity.
  - unfold with_sessions. cbn [SessionManager.sessions].
    generalize (SessionManager.sessions m). intros d. unfold Dict.mem.
    induction d as [|[k' v'] d IH]; cbn [Dict.get Dict.set List.length].
    + reflexivity.
    + destruct (String.eqb session_id k'); [discriminate|].
      intros Hd. cbn [List.length]. now rewrite IH.
Qed.

Lemma close_session_length (session_id : string) (m : manager) :
  List.length (SessionManager.sessions (snd (close_session session_id m)))
  = List.length (SessionManager.sessions m).
Proof.
  unfold close_session.
  destruct (Dict.get session_id (SessionManager.sessions m)) eqn:E; [|reflexivity].
  cbn [snd with_sessions SessionManager.sessions].
  apply length_set_present. unfold Dict.mem. now rewrite E.
Qed.

(** X22.  Closing a session does not free its place: the manager holds as many
    sessions as before, so a manager at its limit still refuses to create
    one.  (Only [remove_session] takes an entry out.) *)
Theorem close_session_keeps_slot
        (closed_id : string) (config : C) (name : option string)
        (session_id : string) (now : Z) (m : manager)
        (Hfull : SessionManager.max_sessions m
                 <= Z.of_nat (List.length (SessionManager.sessions m))) :
  List.length (SessionManager.sessions (snd (close_session closed_id m)))
  = List.length (SessionManager.sessions m) /\
  fst (create_session new_engine driver_url driver_title limit_message
    config name session_id now (snd (close_session closed_id m)))
  = Raise (mkExn RuntimeError (limit_message (SessionManager.max_sessions m))).
Proof.
  split; [apply close_session_length|].
  pose proof (close_session_length closed_id m) as Hlen.
  assert (Hmax : SessionManager.max_sessions (snd (close_session closed_id m))
                 = SessionManager.max_sessions m).
  { unfold close_session.
    destruct (Dict.get closed_id (SessionManager.sessions m)); reflexivity. }
  unfold create_session. rewrite Hlen, Hmax.
  destruct (Z.geb_spec (Z.of_nat (List.length (SessionManager.sessions m)))
                       (SessionManager.max_sessions m)); [reflexivity|lia].
Qed.

(** X23.  Looking a closed session up makes it active again: [get_session] sets
    the status to [ACTIVE] although the engine's driver is gone. *)
Theorem get_session_reactivates_closed
        (session_id : string) (now : Z) (m : manager) (s : Session.t F C W)
        (Hpresent : Dict.get session_id (SessionManager.sessions m) = Some s) :
  Session.status
    (closed s) = CLOSED /\
  exists s',
    fst (get_session session_id now (snd (close_session session_id m))) = Some s' /\
    Session.status s' = ACTIVE /\
    Session.engine s' = None /\
    Session.last_activity s' = now.
Proof.
  split; [reflexivity|].
  unfold close_session. rewrite Hpresent.
  cbn [snd]. unfold get_session, with_sessions. cbn [SessionManager.sessions].
  rewrite get_set_same. eexists. split; [reflexivity|]. repeat split.
Qed.

(** X24.  [remove_session] tells whether the session was there; afterwards the
    session is not found, and every other session is as it was. *)
Theorem remove_session_forgets (session_id : string) (m : manager) :
  fst (remove_session session_id m) = Dict.mem session_id (SessionManager.sessions m) /\
  Dict.get session_id (SessionManager.sessions (snd (remove_session session_id m))) = None /\
  (forall other, other <> session_id ->
     Dict.get other (SessionManager.sessions (snd (remove_session session_id m)))
     = Dict.get other (SessionManager.sessions m)).
Proof.
  unfold remove_session, Dict.mem, close_session.
  destruct (Dict.get session_id (SessionManager.sessions m)) as [s|] eqn:E.
  - cbn [fst snd with_sessions SessionManager.sessions].
    rewrite remove_set_same.
    split; [reflexivity|]. split; [apply get_remove_same|].
    intros other Hne. apply get_remove_other. congruence.
  - cbn [fst snd]. split; [reflexivity|]. split; [exact E|reflexivity].
Qed.

End SessionFacts.

Section SessionSweeps.
Context {F C W : Type}.

Local Abbreviation manager := (SessionManager.t F C W).
Local Abbreviation entry := (string * Session.t F C W)%type.

Lemma remove_session_sessions (session_id : string) (m : manager) :
  SessionManager.sessions (snd (remove_session session_id m))
  = dict_remove session_id (SessionManager.sessions m).
Proof.
  unfold remove_session.
  destruct (Dict.mem session_id (SessionManager.sessions m)) eqn:Hmem.
  - unfold close_session, Dict.mem in *.
    destruct (Dict.get session_id (SessionManager.sessions m)); [|discriminate].
    cbn [snd with_sessions SessionManager.sessions]. apply remove_set_same.
  - cbn [snd]. symmetry. apply remove_absent.
    intros Hin. apply mem_keys in Hin. congruence.
Qed.

Lemma remove_session_settings (session_id : string) (m : manager) :
  SessionManager.session_timeout (snd (remove_session session_id m))
  = SessionManager.session_timeout m.
Proof.
  unfold remove_session, close_session.
  destruct (Dict.mem _ _); [|reflexivity].
  destruct (Dict.get _ _); reflexivity.
Qed.

Lemma keys_filter (p : entry -> bool) (d : list entry) k :
  In k (Dict.keys (filter p d)) -> In k (Dict.keys d).
Proof.
  unfold Dict.keys. rewrite !in_map_iff.
  intros (x & Hx & Hin). apply filter_In in Hin. exists x. tauto.
Qed.

Lemma NoDup_keys_middle (done rest : list entry) k s :
  NoDup (Dict.keys (done ++ (k, s) :: rest)%list) ->
  ~ In k (Dict.keys done) /\ ~ In k (Dict.keys rest).
Proof.
  unfold Dict.keys. rewrite map_app. cbn [map fst]. intros H.
  apply NoDup_remove_2 in H. rewrite in_app_iff in H. tauto.
Qed.

(** X25.  The sweep removes the sessions idle for longer than the time-out, and
    those only: what is left is the other sessions, each as it was, in their
    order. *)
Theorem cleanup_idle_sessions_removes_idle
        (now : Z) (m : manager)
        (Hkeys : NoDup (Dict.keys (SessionManager.sessions m))) :
  SessionManager.sessions (cleanup_idle_sessions now m)
  = filter (fun item => negb (is_idle (SessionManager.session_timeout m) now (snd item)))
           (SessionManager.sessions m).
Proof.
  unfold cleanup_idle_sessions.
  set (timeout := SessionManager.session_timeout m).
  set (keep := filter (fun item : entry => negb (is_idle timeout now (snd item)))).
  set (step := fun (acc : manager) (item : entry) =>
                 if is_idle timeout now (snd item)
                 then snd (remove_session (fst item) acc) else acc).
  assert (Hfold : forall rest done acc,
            NoDup (Dict.keys (done ++ rest)%list) ->
            SessionManager.sessions acc = (keep done ++ rest)%list ->
            SessionManager.sessions (fold_left step rest acc) = keep (done ++ rest)%list).
  { induction rest as [|[k s] rest IH]; intros done acc Hnd Hacc.
    - cbn [fold_left]. now rewrite Hacc, !app_nil_r.
    - cbn [fold_left].
      replace (done ++ (k, s) :: rest)%list with ((done ++ [(k, s)]) ++ rest)%list
        by (rewrite <- app_assoc; reflexivity).
      destruct (NoDup_keys_middle done rest k s Hnd) as [Hdone Hrest].
      apply IH.
      + rewrite <- app_assoc. exact Hnd.
      + unfold step at 1. cbn [fst snd]. unfold keep at 1. rewrite filter_app.
        cbn [filter snd]. fold keep.
        destruct (is_idle timeout now s); cbn [negb].
        * rewrite remove_session_sessions, Hacc, app_nil_r.
          unfold dict_remove. rewrite filter_app. cbn [filter fst].
          rewrite String.eqb_refl. cbn [negb].
          fold (dict_remove k (keep done)). fold (dict_remove k rest).
          rewrite !remove_absent; auto.
          intros Hin. apply Hdone. now apply keys_filter in Hin.
        * rewrite Hacc, <- app_assoc. reflexivity. }
  apply (Hfold (SessionManager.sessions m) [] m); [exact Hkeys|reflexivity].
Qed.

(** X26.  [close_all_sessions] closes every session and removes none: the same
    identifiers in the same order, each entry closed. *)
Theorem close_all_sessions_closes_all
        (m : manager)
        (Hkeys : NoDup (Dict.keys (SessionManager.sessions m))) :
  SessionManager.sessions (close_all_sessions m)
  = map (fun item => (fst item, closed (snd item))) (SessionManager.sessions m).
Proof.
  unfold close_all_sessions.
  set (cl := fun item : entry => (fst item, closed (snd item))).
  assert (Hfold : forall rest done acc,
            NoDup (Dict.keys (done ++ rest)%list) ->
            SessionManager.sessions acc = (map cl done ++ rest)%list ->
            SessionManager.sessions
              (fold_left (fun a id => snd (close_session id a)) (Dict.keys rest) acc)
            = map cl (done ++ rest)%list).
  { induction rest as [|[k s] rest IH]; intros done acc Hnd Hacc.
    - cbn [Dict.keys map fold_left]. now rewrite Hacc, !app_nil_r.
    - unfold Dict.keys. cbn [map fst fold_left]. fold (Dict.keys rest).
      replace (done ++ (k, s) :: rest)%list with ((done ++ [(k, s)]) ++ rest)%list
        by (rewrite <- app_assoc; reflexivity).
      destruct (NoDup_keys_middle done rest k s Hnd) as [Hdone Hrest].
      assert (Hdone' : ~ In k (Dict.keys (map cl done))).
      { unfold Dict.keys. rewrite map_map. exact Hdone. }
      apply IH.
      + rewrite <- app_assoc. exact Hnd.
      + unfold close_session. rewrite Hacc, (get_middle k s _ _ Hdone').
        cbn [snd with_sessions SessionManager.sessions].
        rewrite (set_middle k s _ _ _ Hdone'), map_app, <- app_assoc. reflexivity. }
  apply (Hfold (SessionManager.sessions m) [] m); [exact Hkeys|reflexivity].
Qed.

End SessionSweeps.

Lemma create_session_at_limit_witness :
  toy_create tt None "c" 10 toy_manager
  = (Raise (mkExn RuntimeError "session limit reached (2)"), toy_manager).
Proof.
  apply (create_session_at_limit toy_new_engine (fun _ => None) (fun _ => None)
           toy_limit_message tt None "c" 10 toy_manager).
  simpl. lia.
Defined.

Lemma create_session_then_get_witness :
  exists info m',
    toy_create tt (Some "first") "c" 10 (SessionManager.make [] 2 3600) = (Ok info, m') /\
    fst (get_session "c" 20 m')
    = Some (Session.make (Some tt) tt (Some "first") ACTIVE 10 20 []).
Proof.
  assert (Hroom : Z.of_nat (List.length (SessionManager.sessions
                     (SessionManager.make (F := Z) (C := unit) (W := unit) [] 2 3600)))
                  < SessionManager.max_sessions
                      (SessionManager.make (F := Z) (C := unit) (W := unit) [] 2 3600))
    by (simpl; lia).
  destruct (create_session_then_get toy_new_engine (fun _ => None) (fun _ => None)
              toy_limit_message tt (Some "first") "c" 10 20
              (SessionManager.make [] 2 3600) tt Hroom eq_refl)
    as (info & m' & Hrun & _ & _ & Hget & _).
  exists info, m'. split; [exact Hrun|exact Hget].
Defined.

Lemma close_session_keeps_slot_witness :
  fst (toy_create tt None "c" 10 (snd (close_session "a" toy_manager)))
  = Raise (mkExn RuntimeError "session limit reached (2)").
Proof.
  assert (Hfull : SessionManager.max_sessions toy_manager
                  <= Z.of_nat (List.length (SessionManager.sessions toy_manager)))
    by (simpl; lia).
  apply (close_session_keeps_slot toy_new_engine (fun _ => None) (fun _ => None)
           toy_limit_message "a" tt None "c" 10 toy_manager Hfull).
Defined.

Lemma get_session_reactivates_closed_witness :
  exists s',
    fst (get_session "a" 7 (snd (close_session "a" toy_manager))) = Some s' /\
    Session.status s' = ACTIVE /\ Session.engine s' = None.
Proof.
  destruct (get_session_reactivates_closed "a" 7 toy_manager (toy_session 0) eq_refl)
    as (_ & s' & Hget & Hstatus & Hengine & _).
  exists s'. split; [exact Hget|]. split; assumption.
Defined.

Lemma toy_manager_keys : NoDup (Dict.keys (SessionManager.sessions toy_manager)).
Proof.
  simpl. repeat constructor; simpl; intuition discriminate.
Qed.

(** At 5 500 s, with a time-out of 3 600 s, [a] (last seen at 0 s) goes and
    [b] (last seen at 5 000 s) stays. *)
Lemma cleanup_idle_sessions_removes_idle_witness :
  SessionManager.sessions (cleanup_idle_sessions 5500000000 toy_manager)
  = [("b", toy_session 5000000000)].
Proof.
  rewrite (cleanup_idle_sessions_removes_idle 5500000000 toy_manager toy_manager_keys).
  reflexivity.
Defined.

Lemma close_all_sessions_closes_all_witness :
  map (fun item => Session.status (snd item))
      (SessionManager.sessions (close_all_sessions toy_manager))
  = [CLOSED; CLOSED].
Proof.
  rewrite (close_all_sessions_closes_all toy_manager toy_manager_keys).
  reflexivity.
Defined.


(** ** More on runs *)

Section RunFacts.
Context {F W : Type} {prims : PyPrims F}.
Variable driver : ActionRequest.t F -> W -> (pyval F + exn) * W.

Local Open Scope engine_scope.

(** X28.  Turning the human mode on or off does nothing but write to the log: the
    handler returns [None], and the driver, the stores and the counter are
    untouched, whatever else the request carries. *)
Theorem human_mode_only_logs
        (action : ActionRequest.t F) (st : Engine F W) (on : bool)
        (Hkind : ActionRequest.action action
                 = if on then ENABLE_HUMAN_MODE else DISABLE_HUMAN_MODE) :
  ActionExecutor_execute driver action st
  = (Ok VNone,
     mkEngine (variables st) (executor_variables st) (steps_completed st)
              (driver_state st)
              (log st ++ [LogExecutingAction (ActionRequest.action action);
                          LogHumanMode on])).
Proof.
  unfold ActionExecutor_execute, bind, get_executor_variables. cbn [logger].
  unfold validate.
  change (ActionRequest.action (interpolate_params (executor_variables st) action))
    with (ActionRequest.action action).
  rewrite Hkind. destruct on; unfold ret; simpl; rewrite <- app_assoc; reflexivity.
Qed.

(** A sequence of steps stops at the first one that lets an exception
    through: the steps behind it are not run, and the state is as that step
    left it. *)
Lemma run_steps_stops_at_error
      (exec : ScriptStep.t F -> @M F W (pyval F))
      (before after : list (ScriptStep.t F)) (s : ScriptStep.t F)
      (st st1 st2 : Engine F W) (e : exn) :
  run_steps exec before st = (Ok tt, st1) ->
  exec s st1 = (Raise e, st2) ->
  run_steps exec (before ++ s :: after)%list st = (Raise e, st2).
Proof.
  revert st. induction before as [|b before IH]; intros st Hbefore Hs.
  - cbn [run_steps ret] in Hbefore. injection Hbefore as <-.
    cbn [app run_steps]. unfold bind. now rewrite Hs.
  - cbn [app run_steps] in *. unfold bind in *.
    destruct (exec b st) as [[v|e'] st0]; [|discriminate].
    now apply IH.
Qed.

(** X29.  A script whose steps [before] run to the end and whose next step [s]
    raises: the run stops there.  The result reports the failure with the
    message of that exception, the count and the variables are those at the
    failure, and the steps [after] it change nothing. *)
Theorem execute_script_stops_at_first_error
        (script : Script.t F)
        (before after : list (ScriptStep.t F)) (s : ScriptStep.t F)
        (st st1 st2 : Engine F W) (e : exn)
        (Hsteps : Script.steps script = (before ++ s :: after)%list)
        (Hbefore : run_steps (fun step => execute_step driver step 0) before
                     (prepared script st) = (Ok tt, st1))
        (Hs : execute_step driver s 0 st1 = (Raise e, st2)) :
  fst (execute_script driver script st)
  = Ok (mkRunResult false (steps_completed st2) (variables st2) (Some (exn_msg e))).
Proof.
  unfold execute_script. unfold bind at 1. rewrite prepare_ok.
  unfold bind at 1. unfold try_except. unfold bind at 1.
  rewrite Hsteps.
  rewrite (run_steps_stops_at_error _ before after s _ st1 st2 e Hbefore Hs).
  reflexivity.
Qed.

End RunFacts.

Lemma human_mode_only_logs_witness :
  fst (ActionExecutor_execute Toy.counting_driver
         (ActionRequest.make ENABLE_HUMAN_MODE None None None None None None None None None
                             None None None None None None)
         (ScriptEngine_init None 0)) = Ok VNone.
Proof.
  rewrite (human_mode_only_logs Toy.counting_driver
             (ActionRequest.make ENABLE_HUMAN_MODE None None None None None None None None
                                 None None None None None None None)
             (ScriptEngine_init None 0) true eq_refl).
  reflexivity.
Defined.

Lemma execute_script_stops_at_first_error_witness :
  fst (execute_script Toy.idle_driver stops_at_click (ScriptEngine_init None tt))
  = Ok (mkRunResult false 1 [] (Some "Selector is required for click action")).
Proof.
  assert (Hbefore :
    run_steps (fun step => execute_step Toy.idle_driver step 0)
      [ScriptStep.default "enable_human_mode"]
      (prepared stops_at_click (ScriptEngine_init None tt))
    = (Ok tt, snd (run_steps (fun step => execute_step Toy.idle_driver step 0)
                     [ScriptStep.default "enable_human_mode"]
                     (prepared stops_at_click (ScriptEngine_init None tt)))))
    by (vm_compute; reflexivity).
  rewrite (execute_script_stops_at_first_error Toy.idle_driver stops_at_click
             [ScriptStep.default "enable_human_mode"] [ScriptStep.default "get_url"]
             (ScriptStep.default "click") (ScriptEngine_init None tt) _
             (snd (execute_step Toy.idle_driver (ScriptStep.default "click") 0
                     (snd (run_steps (fun step => execute_step Toy.idle_driver step 0)
                        [ScriptStep.default "enable_human_mode"]
                        (prepared stops_at_click (ScriptEngine_init None tt))))))
             (mkExn ValueError "Selector is required for click action") eq_refl Hbefore).
  - vm_compute. reflexivity.
  - vm_compute. reflexivity.
Defined.
